(** * ai-dial-grounding, task t1: the "no grounding" user search

    A shallow embedding of [task/t1/no_grounding.py] and the properties
    of its batching, context formatting, result aggregation and token
    accounting.

    Conventions of the embedding.
    - A Python [str] is a [string]; each [ascii] stands for one code point
      below 256.
    - A Python [int] is a [Z] (unbounded); lengths and indices are [nat].
    - A user record ([dict[str, Any]]) is the list of its items in the
      dict's iteration order; how a value of type [Any] is rendered by an
      f-string is a parameter of the development.
    - Printing, reading the query, fetching the users and calling the model
      are events of a trace threaded through a state-and-exception monad,
      together with the process-wide token tracker. *)

From Stdlib Require Import ZArith String Ascii List Lia.
From stdpp Require Import gmap strings list pretty.

Open Scope string_scope.

(** ** Text helpers *)

(** The line feed and the double quote, which string literals cannot hold. *)
Definition nl : string := String "010"%char EmptyString.
Definition dquote : string := String "034"%char EmptyString.

(** [sep.join(parts)]. *)
Definition join (sep : string) (parts : list string) : string :=
  String.concat sep parts.

(** [str.isspace] on one code point below 256: TAB, LF, VT, FF, CR, the four
    separators FS, GS, RS, US, the space, NEL (0x85) and NBSP (0xA0). *)
Definition isspace (c : ascii) : bool :=
  let n := nat_of_ascii c in
  ((9 <=? n)%nat && (n <=? 13)%nat)
  || ((28 <=? n)%nat && (n <=? 32)%nat)
  || (n =? 133)%nat
  || (n =? 160)%nat.

Fixpoint lstrip (s : string) : string :=
  match s with
  | EmptyString => EmptyString
  | String c s' => if isspace c then lstrip s' else s
  end.

(** [rstrip] drops the whitespace at the end: a character is kept when
    something non-blank follows it or when it is not blank itself. *)
Fixpoint rstrip (s : string) : string :=
  match s with
  | EmptyString => EmptyString
  | String c s' =>
      match rstrip s' with
      | EmptyString => if isspace c then EmptyString else String c EmptyString
      | r => String c r
      end
  end.

(** [s.strip()]. *)
Definition strip (s : string) : string := rstrip (lstrip s).

(** [c in s] for a single character. *)
Fixpoint occurs (c : ascii) (s : string) : bool :=
  match s with
  | EmptyString => false
  | String d s' => Ascii.eqb c d || occurs c s'
  end.

(** ** The token tracker (class [TokenTracker]) *)

Record TokenTracker : Type := Build_TokenTracker
  { total_tokens : Z;
    batch_tokens : list Z }.

(** [__init__] *)
Definition TokenTracker_init : TokenTracker :=
  {| total_tokens := 0; batch_tokens := [] |}.

(** [add_tokens]: [+=] on the total, [append] on the list. *)
Definition add_tokens (self : TokenTracker) (tokens : Z) : TokenTracker :=
  {| total_tokens := (total_tokens self + tokens)%Z;
     batch_tokens := batch_tokens self ++ [tokens] |}.

(** The dictionary returned by [get_summary], one field per key (its
    [batch_tokens] entry is the tracker's own list, here its value at the
    time of the call). *)
Record Summary : Type := Build_Summary
  { summary_total_tokens : Z;
    batch_count : nat;
    summary_batch_tokens : list Z }.

Definition get_summary (self : TokenTracker) : Summary :=
  {| summary_total_tokens := total_tokens self;
     batch_count := length (batch_tokens self);
     summary_batch_tokens := batch_tokens self |}.

(** A sequence of [add_tokens] calls, oldest first. *)
Definition add_all (self : TokenTracker) (calls : list Z) : TokenTracker :=
  foldl add_tokens self calls.

(** The tracker states a run can be in. *)
Inductive reachable : TokenTracker -> Prop :=
| reachable_init : reachable TokenTracker_init
| reachable_add self tokens :
    reachable self -> reachable (add_tokens self tokens).

Definition sum_tokens (l : list Z) : Z := foldr Z.add 0%Z l.

(** The tracker invariant: the total is the sum of the recorded counts. *)
Definition tracker_inv (self : TokenTracker) : Prop :=
  total_tokens self = sum_tokens (batch_tokens self)
  /\ batch_count (get_summary self)
     = length (batch_tokens self).

(** ** The prompts *)

Definition BATCH_SYSTEM_PROMPT : string :=
  join nl
    [ "You are a user search assistant. Your task is to find users from the provided list that match the search criteria.";
      "";
      "INSTRUCTIONS:";
      "1. Analyze the user question to understand what attributes/characteristics are being searched for";
      "2. Examine each user in the context and determine if they match the search criteria";
      "3. For matching users, extract and return their complete information";
      "4. Be inclusive - if a user partially matches or could potentially match, include them";
      "";
      "OUTPUT FORMAT:";
      "- If you find matching users: Return their full details exactly as provided, maintaining the original format";
      "- If no users match: Respond with exactly " +:+ dquote +:+ "NO_MATCHES_FOUND" +:+ dquote;
      "- If uncertain about a match: Include the user with a note about why they might match" ].

Definition FINAL_SYSTEM_PROMPT : string :=
  join nl
    [ "You are a helpful assistant that provides comprehensive answers based on user search results.";
      "";
      "INSTRUCTIONS:";
      "1. Review all the search results from different user batches";
      "2. Combine and deduplicate any matching users found across batches";
      "3. Present the information in a clear, organized manner";
      "4. If multiple users match, group them logically";
      "5. If no users match, explain what was searched for and suggest alternatives" ].

(** [USER_PROMPT.format(context=context, query=query)]. *)
Definition USER_PROMPT_format (context query : string) : string :=
  "## USER DATA:" +:+ nl +:+ context +:+ nl +:+ nl
  +:+ "## SEARCH QUERY: " +:+ nl +:+ query.

(** The sentinel a batch answers with when none of its users matches. *)
Definition NO_MATCHES_FOUND : string := "NO_MATCHES_FOUND".

(** ** Batching (steps 1 and 2 of [main]) *)

Definition batch_size : nat := 100.

(** [range(start, stop, step)] for a positive [step], with the length
    CPython computes for it.  A zero step, which Python refuses, yields
    the empty range here; [batch_size] is never zero. *)
Definition range (start stop step : nat) : list nat :=
  map (fun k => start + k * step)%nat
      (seq 0 ((stop - start + step - 1) / step)%nat).

(** [l[i:j]] for indices that are not negative: the bounds are clamped to
    the list. *)
Definition slice {A : Type} (l : list A) (i j : nat) : list A :=
  drop i (take j l).

(** [[users[i:i + size] for i in range(0, len(users), size)]]. *)
Definition chunks {A : Type} (size : nat) (users : list A) : list (list A) :=
  map (fun i => slice users i (i + size)) (range 0 (length users) size).

Definition user_batches {A : Type} (users : list A) : list (list A) :=
  chunks batch_size users.

(** ** Messages, responses and the observable trace *)

Inductive message : Type :=
| SystemMessage (content : string)
| HumanMessage (content : string).

(** A value stored in [response_metadata]: a dictionary of counters, or
    anything else (which has no [get] method). *)
Inductive meta_value : Type :=
| MDict (d : gmap string Z)
| MOther.

Record response : Type := Response
  { content : string;
    response_metadata : gmap string meta_value }.

Inductive exn : Type :=
| AttributeError
| Failure (what : string).

Inductive outcome (A : Type) : Type :=
| Raised (e : exn)
| Returned (a : A).
Arguments Raised {A} e.
Arguments Returned {A} a.

Inductive event : Type :=
| Print (line : string)
| Input (prompt : string)
| GetAllUsers
| Ainvoke (messages : list message).

Definition is_ainvoke (e : event) : bool :=
  match e with Ainvoke _ => true | _ => false end.

(** How many model calls a trace holds. *)
Definition model_calls (tr : list event) : nat :=
  length (List.filter is_ainvoke tr).

(** The state of a run: what the outside has seen so far, and the global
    [token_tracker]. *)
Record world : Type := World
  { trace : list event;
    token_tracker : TokenTracker }.

Definition initial_world : world :=
  {| trace := []; token_tracker := TokenTracker_init |}.

(** ** The state-and-exception monad of a run *)

Definition M (A : Type) : Type := world -> world * outcome A.

Definition ret {A : Type} (a : A) : M A := fun w => (w, Returned a).

Definition bind {A B : Type} (c : M A) (k : A -> M B) : M B :=
  fun w =>
    match c w with
    | (w', Returned a) => k a w'
    | (w', Raised e) => (w', Raised e)
    end.

Declare Scope run_scope.
Delimit Scope run_scope with run.
Notation "'do' x <- c ; k" := (bind c (fun x => k))
  (at level 10, x name, c at level 100, k at level 200) : run_scope.
Notation "'do' '_' <- c ; k" := (bind c (fun _ => k))
  (at level 10, c at level 100, k at level 200) : run_scope.
Open Scope run_scope.

Definition lift {A : Type} (o : outcome A) : M A := fun w => (w, o).

Definition emit (e : event) : M unit :=
  fun w => ({| trace := trace w ++ [e]; token_tracker := token_tracker w |},
            Returned tt).

Definition print (line : string) : M unit := emit (Print line).

(** [token_tracker.add_tokens(tokens)] on the global tracker. *)
Definition record_tokens (tokens : Z) : M unit :=
  fun w => ({| trace := trace w;
               token_tracker := add_tokens (token_tracker w) tokens |},
            Returned tt).

Fixpoint for_each {A B : Type} (f : A -> M B) (l : list A) : M (list B) :=
  match l with
  | [] => ret []
  | a :: l' => do b <- f a; do bs <- for_each f l'; ret (b :: bs)
  end.

Fixpoint fold_run {A S : Type} (f : S -> A -> M S) (s : S) (l : list A) : M S :=
  match l with
  | [] => ret s
  | a :: l' => do s' <- f s a; fold_run f s' l'
  end.

(** ** The context formatter ([join_context]) *)

Section Formatter.

(** What [f"{value}"] yields for a field value. *)
Context {V : Type} (format_value : V -> string).

(** A user record: the items of the dict, in its iteration order. *)
Definition user : Type := list (string * V).

(** The inner loop: one [lines.append] per item of the record. *)
Definition append_fields (lines : list string) (u : user) : list string :=
  foldl (fun lines '(key, value) =>
           (lines ++ ["  " +:+ key +:+ ": " +:+ format_value value])%list)
        lines u.

(** The outer loop: the header, then the fields. *)
Definition append_user (lines : list string) (u : user) : list string :=
  append_fields (lines ++ ["User:"])%list u.

Definition join_context (context : list user) : string :=
  match context with
  | [] => "No user data available."
  | _ => join nl (foldl append_user [] context)
  end.

(** The lines one record contributes, written as the reader sees them. *)
Definition field_line (item : string * V) : string :=
  "  " +:+ item.1 +:+ ": " +:+ format_value item.2.

Definition user_lines (u : user) : list string :=
  "User:" :: map field_line u.

(** A record none of whose field names and rendered values holds [c]. *)
Definition free_of (c : ascii) (u : user) : Prop :=
  Forall (fun item => occurs c item.1 = false
                      /\ occurs c (format_value item.2) = false) u.

End Formatter.

(** A quote character: the double or the single quote. *)
Definition is_quote (c : ascii) : bool :=
  Ascii.eqb c "034"%char || Ascii.eqb c "039"%char.

(** ** One model call ([generate_response]) *)

(** [d.get(key, default)]. *)
Definition dict_get {A : Type} (d : gmap string A) (key : string) (dflt : A) : A :=
  default dflt (d !! key).

(** [response.response_metadata.get('token_usage', {}).get('total_tokens', 0)];
    the second [get] fails on a value that is not a dictionary. *)
Definition token_usage_of (r : response) : outcome Z :=
  match dict_get (response_metadata r) "token_usage" (MDict ∅) with
  | MDict usage => Returned (dict_get usage "total_tokens" 0%Z)
  | MOther => Raised AttributeError
  end.

(** A call that has been sent and not yet answered: its rank among the
    calls of the run, and its messages. *)
Definition pending : Type := nat * list message.

Section Client.

(** [client.ainvoke]: what the endpoint does with the call of a given
    rank, an answer or an exception. *)
Context (ainvoke : nat -> list message -> outcome response).

(** [generate_response] up to the point where it awaits the endpoint. *)
Definition send (system_prompt user_message : string) : M pending :=
  do _ <- print "Processing...";
  let messages := [SystemMessage system_prompt; HumanMessage user_message] in
  fun w =>
    let rank := model_calls (trace w) in
    bind (emit (Ainvoke messages)) (fun _ => ret (rank, messages)) w.

(** [generate_response] from the point where the endpoint has answered. *)
Definition receive (p : pending) : M string :=
  do response <- lift (ainvoke p.1 p.2);
  do token_usage <- lift (token_usage_of response);
  do _ <- record_tokens token_usage;
  do _ <- print ("Response content: " +:+ content response);
  do _ <- print ("Total tokens: " +:+ pretty token_usage);
  ret (content response).

Definition generate_response (system_prompt user_message : string) : M string :=
  do p <- send system_prompt user_message;
  receive p.

End Client.

(** ** The join-all barrier ([asyncio.gather]) *)

(** The first occurrence of each index, in order. *)
Fixpoint keep_first (l : list nat) : list nat :=
  match l with
  | [] => []
  | i :: l' => i :: filter (fun j => j ≠ i) (keep_first l')
  end.

(** The order in which [n] calls in flight are answered.  The event loop
    is free to choose it; [sched] is that choice: the calls it names are
    answered first, in the order named (an index out of range or named
    again is skipped), the others afterwards. *)
Definition completion_order (n : nat) (sched : list nat) : list nat :=
  keep_first (filter (fun i => i < n) sched ++ seq 0 n).

(** [str(l)] for a list of integers. *)
Definition repr_list (l : list Z) : string :=
  "[" +:+ join ", " (map pretty l) +:+ "]".

(** A result survives the filter of step 5 when its stripped text is not
    the sentinel. *)
Definition filter_results (batch_result : list string) : list string :=
  filter (fun res => strip res ≠ NO_MATCHES_FOUND) batch_result.

(** The user message of the synthesis call. *)
Definition final_user_message (combined_results user_question : string) : string :=
  "## SEARCH RESULTS:" +:+ nl +:+ combined_results +:+ nl +:+ nl
  +:+ "## ORIGINAL QUERY:" +:+ nl +:+ user_question.

Section Run.

Context {V : Type} (format_value : V -> string).
Context (ainvoke : nat -> list message -> outcome response).
(** The line the operator types, what [UserClient().get_all_users()]
    does, and the choice of the event loop. *)
Context (stdin_line : string).
Context (all_users : outcome (list (@user V))).
Context (sched : list nat).

Definition input (prompt : string) : M string :=
  do _ <- emit (Input prompt);
  ret stdin_line.

Definition get_all_users : M (list (@user V)) :=
  do _ <- emit GetAllUsers;
  lift all_users.

(** One answer arriving while [gather] waits: the task of index [i] runs
    from its await to its end and keeps its result in its own slot. *)
Definition answer (sent : list pending) (slots : list (option string)) (i : nat)
  : M (list (option string)) :=
  match sent !! i with
  | Some p => do r <- receive ainvoke p; ret (<[i := Some r]> slots)
  | None => ret slots
  end.

(** [await asyncio.gather] over the tasks, a task being the two arguments of
    its [generate_response] call.  Every task runs up to its await, in order;
    the answers are then handled in the order the event loop picks; the
    results are handed back by position.  The first exception ends the wait
    (what the tasks still in flight do after it is left out). *)
Definition gather (tasks : list (string * string)) : M (list string) :=
  do sent <- for_each (fun task => send task.1 task.2) tasks;
  do slots <-
    fold_run (answer sent)
             (replicate (length tasks) None)
             (completion_order (length tasks) sched);
  ret (omap id slots).

(** A slot is right when it is empty or holds the content of the answer to
    its own call. *)
Definition slot_ok (sent : list pending) (i : nat) (slot : option string) : Prop :=
  forall s, slot = Some s ->
            exists p r, sent !! i = Some p
                        /\ ainvoke p.1 p.2 = Returned r /\ s = content r.

(** Steps 5 and 6 of [main]: filter the batch results, then either the
    synthesis call or the message that nothing was found. *)
Definition aggregate (batch_result : list string) (user_question : string) : M unit :=
  let filtered_results := filter_results batch_result in
  match filtered_results with
  | _ :: _ =>
      let combined_results := join (nl +:+ nl) filtered_results in
      do _ <- generate_response ainvoke FINAL_SYSTEM_PROMPT
                (final_user_message combined_results user_question);
      ret tt
  | [] => print "No users found matching the search criteria."
  end.

(** Step 7 of [main]. *)
Definition print_summary : M unit :=
  fun w =>
    let summary := get_summary (token_tracker w) in
    (do _ <- print (nl +:+ "--- Token Usage Summary ---");
     do _ <- print ("Total tokens used: " +:+ pretty (summary_total_tokens summary));
     do _ <- print ("Number of batches processed: " +:+ pretty (batch_count summary));
     print ("Tokens used per batch: " +:+ repr_list (summary_batch_tokens summary))) w.

(** The task list of step 3. *)
Definition batch_tasks (batches : list (list (@user V))) (user_question : string)
  : list (string * string) :=
  map (fun user_batch =>
         let batch_context_str := join_context format_value user_batch in
         let user_prompt := USER_PROMPT_format batch_context_str user_question in
         (BATCH_SYSTEM_PROMPT, user_prompt))
      batches.

Definition main : M unit :=
  do _ <- print "Query samples:";
  do _ <- print " - Do we have someone with name John that loves traveling?";
  do line <- input "> ";
  let user_question := strip line in
  match user_question with
  | EmptyString => ret tt
  | _ =>
      do _ <- print (nl +:+ "--- Searching user database ---");
      do users <- get_all_users;
      let tasks := batch_tasks (user_batches users) user_question in
      do batch_result <- gather tasks;
      do _ <- aggregate batch_result user_question;
      print_summary
  end.

End Run.

(** ** Reading the output of the formatter *)

(** [s.split("\n")]. *)
Fixpoint split_lines (s : string) : list string :=
  match s with
  | EmptyString => [EmptyString]
  | String c s' =>
      if Ascii.eqb c "010"%char then EmptyString :: split_lines s'
      else match split_lines s' with
           | line :: lines => String c line :: lines
           | [] => [String c EmptyString]
           end
  end.

(** A character that occurs in none of the texts the formatter puts on a
    line by itself. *)
Definition not_in_layout (c : ascii) : Prop :=
  occurs c "No user data available." = false
  /\ occurs c "User:" = false
  /\ occurs c "  " = false
  /\ occurs c ": " = false.

(** ** Sample data *)

(** A field value: text or a number. *)
Inductive sample_value : Type :=
| Text (s : string)
| Number (n : Z).

Definition format_sample (v : sample_value) : string :=
  match v with
  | Text s => s
  | Number n => pretty n
  end.


(** An endpoint for the examples: the call of rank 1 finds Jane, the others
    answer with the sentinel; the call of rank 0 reports no usage, the call
    of rank [k] otherwise [10 k] tokens. *)
Definition sample_ainvoke (rank : nat) (messages : list message) : outcome response :=
  Returned
    {| content := if (rank =? 1)%nat then "Jane, age 30" else "  NO_MATCHES_FOUND  ";
       response_metadata :=
         if (rank =? 0)%nat then ∅
         else {[ "token_usage" := MDict {[ "total_tokens" := (10 * Z.of_nat rank)%Z ]} ]} |}.

(** [n] users, each with an [id] and a [name]. *)
Definition sample_users (n : nat) : list (@user sample_value) :=
  map (fun i => [("id", Number (Z.of_nat i)); ("name", Text "Jane")]) (seq 0 n).

Definition sample_results : list string :=
  ["NO_MATCHES_FOUND"; "Jane, age 30"; "  NO_MATCHES_FOUND  "].

Definition sentinel_results : list string :=
  ["NO_MATCHES_FOUND"; "  NO_MATCHES_FOUND  "].

(** ** Observations on texts, calls and worlds *)

(** A text made of whitespace only (the empty text included). *)
Fixpoint blank (s : string) : bool :=
  match s with
  | EmptyString => true
  | String c s' => isspace c && blank s'
  end.

(** Whether the endpoint answers a call with a response whose usage can be
    read, and the token count [receive] then records. *)
Definition answers (ainvoke : nat -> list message -> outcome response)
    (p : pending) : bool :=
  match ainvoke p.1 p.2 with
  | Returned r =>
      match token_usage_of r with Returned _ => true | Raised _ => false end
  | Raised _ => false
  end.

Definition tokens_of (ainvoke : nat -> list message -> outcome response)
    (p : pending) : Z :=
  match ainvoke p.1 p.2 with
  | Returned r =>
      match token_usage_of r with Returned n => n | Raised _ => 0%Z end
  | Raised _ => 0%Z
  end.

(** What sending the tasks shows to the outside. *)
Definition dispatch (tasks : list (string * string)) : list event :=
  concat (map (fun task => [Print "Processing...";
                            Ainvoke [SystemMessage task.1; HumanMessage task.2]])
              tasks).

(** A world that continues another: more events after the same trace, more
    counts recorded after the same ones. *)
Definition grows (w w' : world) : Prop :=
  exists evs calls,
    trace w' = (trace w ++ evs)%list
    /\ token_tracker w' = add_all (token_tracker w) calls.

(** The four lines of the usage summary for a tracker. *)
Definition summary_lines (t : TokenTracker) : list event :=
  [Print (nl +:+ "--- Token Usage Summary ---");
   Print ("Total tokens used: " +:+ pretty (total_tokens t));
   Print ("Number of batches processed: " +:+ pretty (length (batch_tokens t)));
   Print ("Tokens used per batch: " +:+ repr_list (batch_tokens t))].

(** The counts recorded while the answers of [order] are handled. *)
Definition recorded (ainvoke : nat -> list message -> outcome response)
    (sent : list pending) (order : list nat) : list Z :=
  omap (fun i => tokens_of ainvoke <$> sent !! i) order.

(** A computation that only appends: whatever its outcome, the world it
    leaves continues the world it started in. *)
Definition steady {A : Type} (c : M A) : Prop := forall w, grows w (c w).1.

(** What a run has shown once the users have been asked for. *)
Definition search_prelude : list event :=
  [Print "Query samples:";
   Print " - Do we have someone with name John that loves traveling?";
   Input "> ";
   Print (nl +:+ "--- Searching user database ---");
   GetAllUsers].

(** A second endpoint for the examples: the first call is answered with a
    usage of 42 tokens, the second one fails, the later ones are answered
    with a [token_usage] entry that is not a dictionary. *)
Definition flaky_ainvoke (rank : nat) (messages : list message) : outcome response :=
  match rank with
  | 0%nat =>
      Returned
        {| content := "Jane, age 30";
           response_metadata :=
             {[ "token_usage" := MDict {[ "total_tokens" := 42%Z ]} ]} |}
  | 1%nat => Raised (Failure "timeout")
  | _ =>
      Returned {| content := "ok";
                  response_metadata := {[ "token_usage" := MOther ]} |}
  end.

(** Worlds in which one call, and two calls, have been sent already. *)
Definition one_call_made : world :=
  {| trace := [Ainvoke []]; token_tracker := TokenTracker_init |}.

Definition two_calls_made : world :=
  {| trace := [Ainvoke []; Ainvoke []]; token_tracker := TokenTracker_init |}.

Definition sample_tasks : list (string * string) :=
  [(BATCH_SYSTEM_PROMPT, "first batch"); (BATCH_SYSTEM_PROMPT, "second batch")].

(** The results one after the other with a blank line between two of them,
    written from the words of the aggregation step and not through [join]. *)
Fixpoint blank_line_separated (results : list string) : string :=
  match results with
  | [] => EmptyString
  | res :: rest =>
      match rest with
      | [] => res
      | _ :: _ => res +:+ nl +:+ nl +:+ blank_line_separated rest
      end
  end.

(** The progress line and the call of one batch, the batch being formatted
    record by record. *)
Definition batch_call {V : Type} (format_value : V -> string)
    (user_question : string) (batch : list (@user V)) : list event :=
  [Print "Processing...";
   Ainvoke [SystemMessage BATCH_SYSTEM_PROMPT;
            HumanMessage
              ("## USER DATA:" +:+ nl
               +:+ join nl (concat (map (user_lines format_value) batch))
               +:+ nl +:+ nl +:+ "## SEARCH QUERY: " +:+ nl +:+ user_question)]].

(** Batch results of which two survive the filter. *)
Definition two_matches : list string :=
  ["Jane, age 30"; "NO_MATCHES_FOUND"; "John, age 41"].

(** * Properties *)

(** ** The token tracker *)

Section TrackerFacts.

Lemma add_all_batch_tokens self calls :
  batch_tokens (add_all self calls) = (batch_tokens self ++ calls)%list.
Proof.
  revert self. induction calls as [|c calls IH]; intros self; simpl.
  - by rewrite app_nil_r.
  - rewrite IH. simpl. by rewrite <- app_assoc.
Qed.

Lemma sum_tokens_app l1 l2 :
  sum_tokens (l1 ++ l2) = (sum_tokens l1 + sum_tokens l2)%Z.
Proof.
  unfold sum_tokens.
  induction l1 as [|x l1 IH]; simpl; [done | rewrite IH; lia].
Qed.

Lemma add_all_total_tokens self calls :
  total_tokens (add_all self calls) = (total_tokens self + sum_tokens calls)%Z.
Proof.
  revert self. induction calls as [|c calls IH]; intros self; simpl.
  - lia.
  - rewrite IH. simpl. unfold sum_tokens. lia.
Qed.

Lemma add_tokens_inv self tokens :
  tracker_inv self -> tracker_inv (add_tokens self tokens).
Proof.
  intros [Htot _]. split; [|done]. simpl.
  rewrite sum_tokens_app, Htot. unfold sum_tokens. simpl. lia.
Qed.

End TrackerFacts.

(** C9.  [add_tokens] adds the count to the running total and appends it to
    the per-call sequence; after any sequence of calls on a fresh tracker
    [get_summary] holds the sum of the counts, their number and the counts
    in recording order.  From a fresh tracker, 120 then 80 gives a total of
    200, a batch count of 2 and the sequence [120, 80]. *)
Theorem tracker_add_summary :
  (forall self tokens,
      total_tokens (add_tokens self tokens)
      = (total_tokens self + tokens)%Z
      /\ batch_tokens (add_tokens self tokens)
         = (batch_tokens self ++ [tokens])%list)
  /\ (forall calls,
         get_summary (add_all TokenTracker_init calls)
         = {| summary_total_tokens := sum_tokens calls;
              batch_count := length calls;
              summary_batch_tokens := calls |})
  /\ get_summary
       (add_tokens (add_tokens TokenTracker_init 120) 80)
     = {| summary_total_tokens := 200;
          batch_count := 2;
          summary_batch_tokens := [120%Z; 80%Z] |}.
Proof.
  split; [|split].
  - intros self tokens. split; reflexivity.
  - intros calls. unfold get_summary.
    rewrite add_all_batch_tokens, add_all_total_tokens. simpl.
    f_equal.
  - reflexivity.
Qed.

(** C10.  In every tracker state reachable from a fresh tracker by
    [add_tokens] calls the total equals the sum of the recorded counts and
    the summary's batch count equals their number; every [add_tokens] call
    preserves this. *)
Theorem tracker_invariant :
  (forall self, reachable self -> tracker_inv self)
  /\ (forall self tokens,
         tracker_inv self -> tracker_inv (add_tokens self tokens)).
Proof.
  split.
  - induction 1 as [|self tokens _ IH].
    + split; reflexivity.
    + by apply add_tokens_inv.
  - apply add_tokens_inv.
Qed.

Lemma tracker_invariant_witness :
  reachable (add_tokens (add_tokens TokenTracker_init 120) 80)
  /\ tracker_inv
       (add_tokens (add_tokens TokenTracker_init 120) 80).
Proof.
  assert (Hr : reachable
                 (add_tokens
                    (add_tokens TokenTracker_init 120) 80))
    by apply reachable_add, reachable_add, reachable_init.
  split; [exact Hr | exact (proj1 tracker_invariant _ Hr)].
Defined.

(** ** Batching *)

Section BatchingFacts.

Context {A : Type}.
Implicit Types (users : list A) (size : nat).

Lemma range_from_zero n size :
  range 0 n size = map (fun k => k * size)%nat (seq 0 ((n + size - 1) / size)%nat).
Proof. unfold range. by rewrite Nat.sub_0_r. Qed.

Lemma slice_take_drop users i size :
  slice users i (i + size) = take size (drop i users).
Proof. unfold slice. by rewrite take_drop_commute. Qed.

Lemma chunks_unfold size users :
  chunks size users
  = map (fun k => take size (drop (k * size) users))
        (seq 0 ((length users + size - 1) / size)%nat).
Proof.
  unfold chunks. rewrite range_from_zero, map_map.
  apply map_ext. intros k. apply slice_take_drop.
Qed.

(** The number of chunks is the ceiling of the quotient. *)
Lemma ceil_div_bounds n size :
  (0 < size)%nat ->
  let c := ((n + size - 1) / size)%nat in
  (n <= c * size)%nat /\ (forall k, n <= k * size -> c <= k)%nat.
Proof.
  intros Hs c.
  assert (Hdm := Nat.div_mod_eq (n + size - 1) size).
  assert (Hlt := Nat.mod_upper_bound (n + size - 1) size ltac:(lia)).
  fold c in Hdm. split.
  - nia.
  - intros k Hk. nia.
Qed.

Lemma concat_prefix_chunks size users k :
  concat (map (fun i => take size (drop (i * size) users)) (seq 0 k))
  = take (k * size) users.
Proof.
  induction k as [|k IH].
  - by rewrite take_0.
  - rewrite seq_S, map_app, concat_app, IH. simpl.
    rewrite app_nil_r, take_take_drop. f_equal. lia.
Qed.

Lemma chunks_length size users :
  length (chunks size users) = ((length users + size - 1) / size)%nat.
Proof. by rewrite chunks_unfold, length_map, length_seq. Qed.

Lemma chunks_lookup size users i :
  (i < length (chunks size users))%nat ->
  chunks size users !! i = Some (take size (drop (i * size) users)).
Proof.
  rewrite chunks_length. intros Hi.
  rewrite chunks_unfold, list_lookup_fmap, lookup_seq_lt by done.
  reflexivity.
Qed.

Lemma chunks_concat size users :
  (0 < size)%nat -> concat (chunks size users) = users.
Proof.
  intros Hs. rewrite chunks_unfold, concat_prefix_chunks.
  apply take_ge. by apply ceil_div_bounds.
Qed.

Lemma chunks_full size users i :
  (0 < size)%nat ->
  (S i < length (chunks size users))%nat ->
  length (take size (drop (i * size) users)) = size.
Proof.
  intros Hs Hi.
  destruct (ceil_div_bounds (length users) size Hs) as [_ Hmin].
  rewrite <- chunks_length in Hmin.
  rewrite length_take, length_drop.
  destruct (decide (length users <= S i * size)%nat) as [Hle|Hgt].
  - specialize (Hmin _ Hle). lia.
  - lia.
Qed.

Lemma chunks_last size users i :
  (0 < size)%nat ->
  S i = length (chunks size users) ->
  length (take size (drop (i * size) users)) = (length users - i * size)%nat
  /\ (0 < length users - i * size <= size)%nat.
Proof.
  intros Hs Hi.
  destruct (ceil_div_bounds (length users) size Hs) as [Hcov Hmin].
  rewrite <- chunks_length in Hcov, Hmin. rewrite <- Hi in Hcov.
  assert (~ (length users <= i * size)%nat) as Hgt.
  { intros Hle. specialize (Hmin _ Hle). lia. }
  rewrite length_take, length_drop. lia.
Qed.

End BatchingFacts.

(** C1.  For a list of [N] users the batching step yields the ceiling of
    [N / 100] batches (the least [k] with [N <= 100 k]); batch [i] is the
    slice of 100 users starting at position [100 i], so every batch but the
    last holds exactly 100 users and the last one holds the remaining ones,
    at least one and at most 100; the batches concatenated in order are the
    original list. *)
Theorem user_batches_partition {A : Type} (users : list A) :
  let N := length users in
  let batches := user_batches users in
  (N <= length batches * batch_size
   /\ forall k, N <= k * batch_size -> length batches <= k)%nat
  /\ length batches = ((N + 99) / 100)%nat
  /\ (forall i batch,
         batches !! i = Some batch ->
         batch = take batch_size (drop (i * batch_size) users)
         /\ (S i < length batches -> length batch = batch_size)%nat
         /\ (S i = length batches ->
             length batch = N - i * batch_size
             /\ 0 < length batch <= batch_size)%nat)
  /\ concat batches = users.
Proof.
  intros N batches. unfold batches, user_batches, N.
  assert (Hs : (0 < batch_size)%nat) by (unfold batch_size; lia).
  split; [|split; [|split]].
  - rewrite chunks_length. by apply ceil_div_bounds.
  - rewrite chunks_length. unfold batch_size. f_equal. lia.
  - intros i batch Hb.
    assert (Hi : (i < length (chunks batch_size users))%nat)
      by (eapply lookup_lt_Some; eassumption).
    rewrite chunks_lookup in Hb by done. injection Hb as <-.
    split; [done|]. split.
    + intros Hlt. by apply chunks_full.
    + intros Hlast. destruct (chunks_last batch_size users i Hs Hlast) as [-> ?].
      done.
  - by apply chunks_concat.
Qed.

Lemma user_batches_partition_witness :
  map length (user_batches (seq 0 250)) = [100; 100; 50]%nat
  /\ concat (user_batches (seq 0 250)) = seq 0 250.
Proof.
  split.
  - vm_compute. reflexivity.
  - exact (proj2 (proj2 (proj2 (user_batches_partition (seq 0 250))))).
Defined.

(** ** Filtering the batch results *)

Lemma filter_results_app l1 l2 :
  filter_results (l1 ++ l2) = (filter_results l1 ++ filter_results l2)%list.
Proof. apply filter_app. Qed.

Lemma filter_results_cons res l :
  filter_results (res :: l)
  = if decide (strip res = NO_MATCHES_FOUND) then filter_results l
    else res :: filter_results l.
Proof.
  unfold filter_results. rewrite filter_cons.
  destruct (decide (strip res = NO_MATCHES_FOUND)) as [Heq|Hne].
  - by rewrite decide_False by (intros H; by apply H).
  - by rewrite decide_True.
Qed.

Lemma filter_results_nil_iff l :
  filter_results l = [] <-> Forall (fun res => strip res = NO_MATCHES_FOUND) l.
Proof.
  induction l as [|res l IH].
  - split; [constructor | done].
  - rewrite filter_results_cons, Forall_cons.
    destruct (decide (strip res = NO_MATCHES_FOUND)) as [Heq|Hne].
    + rewrite IH. tauto.
    + split; [done | tauto].
Qed.

(** C2.  The filter of step 5 keeps exactly the results whose stripped text
    is not the sentinel [NO_MATCHES_FOUND], in their original order: what it
    returns is a subsequence of the batch results holding just the results
    that are not sentinels, and it decides for each result on its own (a
    single result is kept or dropped by its stripped text, and filtering a
    concatenation is concatenating the filtered parts).  Of the three
    results "NO_MATCHES_FOUND", "Jane, age 30", "  NO_MATCHES_FOUND  " only
    "Jane, age 30" survives. *)
Theorem filter_results_keeps_non_sentinel :
  (forall batch_result,
      filter_results batch_result `sublist_of` batch_result
      /\ (forall res, res ∈ filter_results batch_result
                      <-> res ∈ batch_result /\ strip res <> NO_MATCHES_FOUND))
  /\ (forall res,
         filter_results [res]
         = if decide (strip res = NO_MATCHES_FOUND) then [] else [res])
  /\ (forall l1 l2,
         filter_results (l1 ++ l2)
         = (filter_results l1 ++ filter_results l2)%list)
  /\ filter_results ["NO_MATCHES_FOUND"; "Jane, age 30"; "  NO_MATCHES_FOUND  "]
     = ["Jane, age 30"].
Proof.
  split; [|split; [|split]].
  - intros batch_result. split.
    + apply sublist_filter.
    + intros res. unfold filter_results. rewrite list_elem_of_filter. tauto.
  - intros res. by rewrite filter_results_cons.
  - apply filter_results_app.
  - vm_compute. reflexivity.
Qed.

(** ** Traces *)

Lemma model_calls_app tr1 tr2 :
  model_calls (tr1 ++ tr2) = (model_calls tr1 + model_calls tr2)%nat.
Proof. unfold model_calls. by rewrite List.filter_app, length_app. Qed.

Lemma model_calls_print tr line :
  model_calls (tr ++ [Print line]) = model_calls tr.
Proof. rewrite model_calls_app. simpl. unfold model_calls at 2. simpl. lia. Qed.

Section ClientFacts.

Context (ainvoke : nat -> list message -> outcome response).

Lemma send_run system_prompt user_message w :
  send system_prompt user_message w
  = ({| trace := trace w
                 ++ [Print "Processing...";
                     Ainvoke [SystemMessage system_prompt; HumanMessage user_message]];
        token_tracker := token_tracker w |},
     Returned (model_calls (trace w),
               [SystemMessage system_prompt; HumanMessage user_message])).
Proof.
  unfold send, bind, print, emit, ret. simpl.
  rewrite model_calls_print, <- app_assoc. reflexivity.
Qed.

(** What [receive] does once the endpoint has answered with [r] and the
    token count [n] has been read off the metadata. *)
Lemma receive_returned p r n w :
  ainvoke p.1 p.2 = Returned r ->
  token_usage_of r = Returned n ->
  receive ainvoke p w
  = ({| trace := trace w
                 ++ [Print ("Response content: " +:+ content r);
                     Print ("Total tokens: " +:+ pretty n)];
        token_tracker := add_tokens (token_tracker w) n |},
     Returned (content r)).
Proof.
  intros Hr Hn. unfold receive, bind, lift, record_tokens, print, emit, ret.
  rewrite Hr, Hn. simpl. by rewrite <- app_assoc.
Qed.

(** [receive] sends nothing: whatever the answer, it only prints. *)
Lemma receive_trace p w :
  exists rest,
    trace (receive ainvoke p w).1 = (trace w ++ rest)%list
    /\ model_calls rest = 0%nat.
Proof.
  unfold receive, bind, lift, record_tokens, print, emit, ret.
  destruct (ainvoke p.1 p.2) as [e|r]; simpl.
  - exists []. by rewrite app_nil_r.
  - destruct (token_usage_of r) as [e|n]; simpl.
    + exists []. by rewrite app_nil_r.
    + eexists. rewrite <- app_assoc. split; [reflexivity|]. reflexivity.
Qed.

End ClientFacts.

(** ** Aggregation *)

Lemma string_app_assoc (s1 s2 s3 : string) :
  s1 +:+ (s2 +:+ s3) = (s1 +:+ s2) +:+ s3.
Proof.
  induction s1 as [|c s1 IH]; [done|].
  change (String c (s1 +:+ (s2 +:+ s3)) = String c ((s1 +:+ s2) +:+ s3)).
  by rewrite IH.
Qed.

Lemma join_two_or_more sep a b parts :
  join sep (a :: b :: parts) = a +:+ sep +:+ join sep (b :: parts).
Proof. reflexivity. Qed.

Lemma join_blank_line results :
  join (nl +:+ nl) results = blank_line_separated results.
Proof.
  induction results as [|res rest IH]; [done|].
  destruct rest as [|res' rest]; [done|].
  change (res +:+ (nl +:+ nl) +:+ join (nl +:+ nl) (res' :: rest)
          = res +:+ nl +:+ nl +:+ blank_line_separated (res' :: rest)).
  by rewrite IH, <- string_app_assoc.
Qed.

Section AggregateFacts.

Context (ainvoke : nat -> list message -> outcome response).

(** C3.  When the stripped text of every batch result is the sentinel,
    nothing survives the filter, and the aggregation step only prints
    that no users were found: it returns normally, sends no call to the
    model and leaves the token tracker as it was. *)
Theorem aggregate_all_sentinel batch_result user_question w :
  Forall (fun res => strip res = NO_MATCHES_FOUND) batch_result ->
  filter_results batch_result = []
  /\ aggregate ainvoke batch_result user_question w
     = ({| trace := trace w
                    ++ [Print "No users found matching the search criteria."];
           token_tracker := token_tracker w |},
        Returned tt)
  /\ model_calls (trace (aggregate ainvoke batch_result user_question w).1)
     = model_calls (trace w).
Proof.
  intros Hall. apply filter_results_nil_iff in Hall.
  assert (Hrun : aggregate ainvoke batch_result user_question w
                 = ({| trace := trace w
                         ++ [Print "No users found matching the search criteria."];
                       token_tracker := token_tracker w |},
                    Returned tt)).
  { unfold aggregate. rewrite Hall. reflexivity. }
  split; [done|]. split; [done|].
  rewrite Hrun. simpl. apply model_calls_print.
Qed.

(** C4.  When a result survives the filter, the aggregation step sends
    exactly one call to the model.  Its system message is
    [FINAL_SYSTEM_PROMPT], the fixed synthesis instruction spelled out
    below.  Its user message is the heading of the search results, the
    survivors in their order with a blank line (two line feeds) between two
    of them, a blank line, the heading of the original query and the
    query. *)
Theorem aggregate_synthesis_call batch_result user_question w :
  filter_results batch_result <> [] ->
  let survivors := filter_results batch_result in
  let user_message :=
    "## SEARCH RESULTS:" +:+ nl +:+ blank_line_separated survivors
    +:+ nl +:+ nl +:+ "## ORIGINAL QUERY:" +:+ nl +:+ user_question in
  let w' := (aggregate ainvoke batch_result user_question w).1 in
  (exists rest,
      trace w'
      = (trace w
         ++ [Print "Processing...";
             Ainvoke [SystemMessage FINAL_SYSTEM_PROMPT;
                      HumanMessage user_message]]
         ++ rest)%list
      /\ model_calls rest = 0%nat)
  /\ model_calls (trace w') = S (model_calls (trace w))
  /\ (forall res, blank_line_separated [res] = res)
  /\ (forall res res' rest,
         blank_line_separated (res :: res' :: rest)
         = res +:+ nl +:+ nl +:+ blank_line_separated (res' :: rest))
  /\ FINAL_SYSTEM_PROMPT
     = "You are a helpful assistant that provides comprehensive answers based on user search results."
       +:+ nl +:+ nl
       +:+ "INSTRUCTIONS:" +:+ nl
       +:+ "1. Review all the search results from different user batches" +:+ nl
       +:+ "2. Combine and deduplicate any matching users found across batches" +:+ nl
       +:+ "3. Present the information in a clear, organized manner" +:+ nl
       +:+ "4. If multiple users match, group them logically" +:+ nl
       +:+ "5. If no users match, explain what was searched for and suggest alternatives".
Proof.
  intros Hne survivors user_message w'.
  assert (Htr : exists rest,
             trace w'
             = (trace w
                ++ [Print "Processing...";
                    Ainvoke [SystemMessage FINAL_SYSTEM_PROMPT;
                             HumanMessage user_message]]
                ++ rest)%list
             /\ model_calls rest = 0%nat).
  { unfold w', aggregate. fold survivors.
    assert (Hmsg : final_user_message (join (nl +:+ nl) survivors) user_question
                   = user_message)
      by (unfold final_user_message, user_message; by rewrite join_blank_line).
    destruct survivors as [|res results] eqn:Hf; [done|].
    rewrite Hmsg.
    unfold generate_response, bind at 1. unfold bind at 1.
    rewrite send_run.
    match goal with
    | |- context [receive ainvoke ?p ?w0] =>
        destruct (receive_trace ainvoke p w0) as (rest & Hrest & Hcalls);
        destruct (receive ainvoke p w0) as [w1 [e|a]]
    end; simpl in *; exists rest; rewrite Hrest, <- app_assoc; done. }
  split; [exact Htr|]. split; [|repeat split].
  destruct Htr as (rest & -> & Hcalls).
  rewrite !model_calls_app, Hcalls. unfold model_calls at 2. simpl. lia.
Qed.

End AggregateFacts.

Section MainFacts.

Context {V : Type} (format_value : V -> string).
Context (ainvoke : nat -> list message -> outcome response).
Context (all_users : outcome (list (@user V))).
Context (sched : list nat).

(** C7.  When the stripped query is empty the run ends right after
    reading it: the users are not fetched, no call is sent to the model,
    nothing is printed after the prompt (no search output and no usage
    summary), the token tracker is untouched and no exception is
    raised. *)
Theorem main_blank_query stdin_line w :
  strip stdin_line = "" ->
  main format_value ainvoke stdin_line all_users sched w
  = ({| trace := trace w
                 ++ [Print "Query samples:";
                     Print " - Do we have someone with name John that loves traveling?";
                     Input "> "];
        token_tracker := token_tracker w |},
     Returned tt).
Proof.
  intros Hblank. unfold main, bind, print, input, emit, ret, bind. simpl.
  rewrite Hblank. by rewrite <- !app_assoc.
Qed.

End MainFacts.

Lemma token_usage_of_raised r e :
  token_usage_of r = Raised e ->
  response_metadata r !! "token_usage" = Some MOther /\ e = AttributeError.
Proof.
  unfold token_usage_of, dict_get.
  destruct (response_metadata r !! "token_usage") as [[usage|]|]; simpl;
    [done | by intros [= <-] | done].
Qed.

(** C8.  When the metadata of the answer has no [token_usage] entry, or that
    entry is a dictionary without [total_tokens], [generate_response] does
    not raise: it returns the content of the answer, prints a token count of
    0 and records it, the tracker getting one more per-call count, 0, and
    keeping its total.  Recording a count never raises (it adds the count to
    the total and appends it to the per-call counts), and when
    [generate_response] does raise, the exception is the endpoint's own or
    the one of a [token_usage] entry that is not a dictionary. *)
Theorem generate_response_missing_usage
    (ainvoke : nat -> list message -> outcome response)
    system_prompt user_message w r :
  ainvoke (model_calls (trace w))
          [SystemMessage system_prompt; HumanMessage user_message]
  = Returned r ->
  (response_metadata r !! "token_usage" = None
   \/ exists usage,
        response_metadata r !! "token_usage" = Some (MDict usage)
        /\ usage !! "total_tokens" = None) ->
  generate_response ainvoke system_prompt user_message w
  = ({| trace := trace w
                 ++ [Print "Processing...";
                     Ainvoke [SystemMessage system_prompt; HumanMessage user_message];
                     Print ("Response content: " +:+ content r);
                     Print "Total tokens: 0"];
        token_tracker :=
          {| total_tokens := total_tokens (token_tracker w);
             batch_tokens := batch_tokens (token_tracker w) ++ [0%Z] |} |},
     Returned (content r))
  /\ (forall tokens w0,
         record_tokens tokens w0
         = ({| trace := trace w0;
               token_tracker :=
                 {| total_tokens := (total_tokens (token_tracker w0) + tokens)%Z;
                    batch_tokens := batch_tokens (token_tracker w0) ++ [tokens] |} |},
            Returned tt))
  /\ (forall system_prompt0 user_message0 w0 w1 e,
         generate_response ainvoke system_prompt0 user_message0 w0 = (w1, Raised e) ->
         ainvoke (model_calls (trace w0))
                 [SystemMessage system_prompt0; HumanMessage user_message0]
         = Raised e
         \/ exists r0,
              ainvoke (model_calls (trace w0))
                      [SystemMessage system_prompt0; HumanMessage user_message0]
              = Returned r0
              /\ response_metadata r0 !! "token_usage" = Some MOther
              /\ e = AttributeError).
Proof.
  intros Hr Hmissing. split; [|split; [reflexivity|]].
  - assert (Hn : token_usage_of r = Returned 0%Z).
    { unfold token_usage_of, dict_get.
      destruct Hmissing as [-> | (usage & -> & Hu)]; simpl.
      - by rewrite lookup_empty.
      - by rewrite Hu. }
    unfold generate_response, bind. rewrite send_run.
    erewrite receive_returned by eassumption.
    unfold add_tokens. simpl. by rewrite Z.add_0_r, <- app_assoc.
  - intros system_prompt0 user_message0 w0 w1 e.
    unfold generate_response, bind at 1. rewrite send_run.
    unfold receive, bind at 1, lift. simpl.
    destruct (ainvoke (model_calls (trace w0))
                [SystemMessage system_prompt0; HumanMessage user_message0])
      as [e0|r0] eqn:Hcall.
    + intros [= _ <-]. by left.
    + unfold bind at 1. destruct (token_usage_of r0) as [e0|n] eqn:Hn.
      * intros [= _ <-]. right. exists r0.
        by destruct (token_usage_of_raised r0 e0 Hn).
      * done.
Qed.

(** ** The context formatter *)

Lemma occurs_cons c d s :
  occurs c (String d s) = Ascii.eqb c d || occurs c s.
Proof. reflexivity. Qed.

Lemma occurs_app c s1 s2 :
  occurs c (s1 +:+ s2) = occurs c s1 || occurs c s2.
Proof.
  induction s1 as [|d s1 IH]; [done|].
  change (occurs c (String d (s1 +:+ s2)) = occurs c (String d s1) || occurs c s2).
  by rewrite !occurs_cons, IH, orb_assoc.
Qed.

Lemma occurs_join c sep parts :
  occurs c sep = false ->
  Forall (fun part => occurs c part = false) parts ->
  occurs c (join sep parts) = false.
Proof.
  intros Hsep Hparts. unfold join.
  induction Hparts as [|part parts Hpart Hparts IH]; [done|].
  destruct parts as [|part' parts]; [done|].
  change (occurs c (part +:+ sep +:+ String.concat sep (part' :: parts)) = false).
  by rewrite !occurs_app, Hpart, Hsep, IH.
Qed.

Lemma split_lines_cons c s :
  split_lines (String c s)
  = if Ascii.eqb c "010"%char then EmptyString :: split_lines s
    else match split_lines s with
         | line :: lines => String c line :: lines
         | [] => [String c EmptyString]
         end.
Proof. reflexivity. Qed.

Lemma split_lines_line line :
  occurs "010"%char line = false -> split_lines line = [line].
Proof.
  induction line as [|c line IH]; [done|].
  rewrite occurs_cons, split_lines_cons.
  intros Hfree. apply orb_false_elim in Hfree as [Hc Hfree].
  rewrite Ascii.eqb_sym, Hc, IH by done. reflexivity.
Qed.

Lemma split_lines_app line rest :
  occurs "010"%char line = false ->
  split_lines (line +:+ nl +:+ rest) = line :: split_lines rest.
Proof.
  induction line as [|c line IH].
  - reflexivity.
  - change (String c line +:+ nl +:+ rest) with (String c (line +:+ nl +:+ rest)).
    rewrite occurs_cons, split_lines_cons.
    intros Hfree. apply orb_false_elim in Hfree as [Hc Hfree].
    rewrite Ascii.eqb_sym, Hc, IH by done. reflexivity.
Qed.

Lemma split_lines_join lines :
  lines <> [] ->
  Forall (fun line => occurs "010"%char line = false) lines ->
  split_lines (join nl lines) = lines.
Proof.
  intros Hne Hfree. unfold join.
  induction Hfree as [|line lines Hline Hlines IH]; [done|].
  destruct lines as [|line' lines].
  - by apply split_lines_line.
  - change (split_lines (line +:+ nl +:+ String.concat nl (line' :: lines))
            = line :: line' :: lines).
    rewrite split_lines_app by done. by rewrite IH.
Qed.

Section FormatterFacts.

Context {V : Type} (format_value : V -> string).
Implicit Types (u : @user V) (context : list (@user V)).

Lemma append_fields_lines lines u :
  append_fields format_value lines u
  = (lines ++ map (field_line format_value) u)%list.
Proof.
  unfold append_fields. revert lines.
  induction u as [|[key value] u IH]; intros lines; simpl.
  - by rewrite app_nil_r.
  - rewrite IH, <- app_assoc. reflexivity.
Qed.

Lemma append_user_lines lines u :
  append_user format_value lines u = (lines ++ user_lines format_value u)%list.
Proof.
  unfold append_user, user_lines. by rewrite append_fields_lines, <- app_assoc.
Qed.

Lemma foldl_append_user lines context :
  foldl (append_user format_value) lines context
  = (lines ++ concat (map (user_lines format_value) context))%list.
Proof.
  revert lines. induction context as [|u context IH]; intros lines; simpl.
  - by rewrite app_nil_r.
  - by rewrite IH, append_user_lines, <- app_assoc.
Qed.

Lemma join_context_lines u context :
  join_context format_value (u :: context)
  = join nl (concat (map (user_lines format_value) (u :: context))).
Proof. unfold join_context. by rewrite foldl_append_user. Qed.

Lemma field_line_free c item :
  not_in_layout c ->
  occurs c item.1 = false /\ occurs c (format_value item.2) = false ->
  occurs c (field_line format_value item) = false.
Proof.
  intros (_ & _ & Hindent & Hcolon) [Hk Hv]. unfold field_line.
  by rewrite !occurs_app, Hindent, Hk, Hcolon, Hv.
Qed.

Lemma user_lines_free c u :
  not_in_layout c ->
  free_of format_value c u ->
  Forall (fun line => occurs c line = false) (user_lines format_value u).
Proof.
  intros Hc Hu. unfold user_lines. constructor.
  - apply Hc.
  - apply Forall_map. eapply Forall_impl; [exact Hu|].
    intros item Hitem. by apply field_line_free.
Qed.

Lemma context_lines_free c context :
  not_in_layout c ->
  Forall (free_of format_value c) context ->
  Forall (fun line => occurs c line = false)
         (concat (map (user_lines format_value) context)).
Proof.
  intros Hc Hctx. apply Forall_concat, Forall_map.
  eapply Forall_impl; [exact Hctx|].
  intros u Hu. by apply user_lines_free.
Qed.

Lemma join_context_free c context :
  not_in_layout c ->
  occurs c nl = false ->
  Forall (free_of format_value c) context ->
  occurs c (join_context format_value context) = false.
Proof.
  intros Hc Hnl Hfree.
  destruct context as [|u context]; [apply Hc|].
  rewrite join_context_lines.
  apply occurs_join; [exact Hnl|]. by apply context_lines_free.
Qed.

(** C5.  [join_context] is a function of the batch.  On the empty batch it
    returns "No user data available.".  On a batch that is not empty it
    returns, joined by line feeds, the lines of the records in order, a
    record giving the line "User:" followed by one line "  key: value" per
    item in the iteration order of the record; when no field name and no
    rendered value holds a line feed, these are exactly the lines of the
    output. *)
Theorem join_context_layout :
  join_context format_value [] = "No user data available."
  /\ (forall u context,
         join_context format_value (u :: context)
         = join nl (concat (map (user_lines format_value) (u :: context))))
  /\ (forall u context,
         Forall (free_of format_value "010"%char) (u :: context) ->
         split_lines (join_context format_value (u :: context))
         = concat (map (user_lines format_value) (u :: context))).
Proof.
  split; [reflexivity|]. split; [apply join_context_lines|].
  intros u context Hfree. rewrite join_context_lines.
  apply split_lines_join; [done|].
  apply context_lines_free; [|done].
  repeat split.
Qed.

(** C6, as amended.  [join_context] writes no quote character of its own:
    when no field name and no rendered value of the batch holds a given
    quote character (double or single), the output does not hold it
    either. *)
Theorem join_context_adds_no_quote c context :
  is_quote c = true ->
  Forall (free_of format_value c) context ->
  occurs c (join_context format_value context) = false.
Proof.
  intros Hq Hfree.
  assert (Hc : not_in_layout c /\ occurs c nl = false).
  { unfold is_quote in Hq. apply orb_true_iff in Hq as [Hq|Hq];
      apply Ascii.eqb_eq in Hq; subst c; repeat split. }
  destruct Hc as [Hc Hnl]. by apply join_context_free.
Qed.

End FormatterFacts.

(** C6, as stated, fails: a field value is copied as it is, so a double
    quote inside a value reaches the output. *)
Lemma join_context_quote_counterexample :
  is_quote "034"%char = true
  /\ occurs "034"%char
       (join_context format_sample [[("name", Text ("Jo" +:+ dquote +:+ "hn"))]])
     = true.
Proof. split; vm_compute; reflexivity. Qed.

(** ** The join-all barrier *)

Lemma keep_first_elem_of l i : i ∈ keep_first l <-> i ∈ l.
Proof.
  induction l as [|j l IH]; simpl; [done|].
  rewrite !elem_of_cons, list_elem_of_filter, IH.
  destruct (decide (i = j)); tauto.
Qed.

Lemma keep_first_NoDup l : NoDup (keep_first l).
Proof.
  induction l as [|j l IH]; simpl; constructor.
  - rewrite list_elem_of_filter. by intros [Hne _].
  - by apply NoDup_filter.
Qed.

(** Every call in flight is answered, and answered once. *)
Lemma completion_order_perm n sched : completion_order n sched ≡ₚ seq 0 n.
Proof.
  apply NoDup_Permutation.
  - apply keep_first_NoDup.
  - apply NoDup_seq.
  - intros i. unfold completion_order.
    rewrite keep_first_elem_of, elem_of_app, list_elem_of_filter, !elem_of_seq.
    lia.
Qed.

Lemma omap_id_filled {A : Type} (slots : list (option A)) :
  Forall is_Some slots -> slots = Some <$> omap id slots.
Proof.
  induction 1 as [|o slots [a ->] _ IH]; [done|].
  change (Some a :: slots = Some a :: (Some <$> omap id slots)).
  by rewrite <- IH.
Qed.

Section GatherFacts.

Context (ainvoke : nat -> list message -> outcome response).

Lemma send_model_calls system_prompt user_message w :
  model_calls (trace (send system_prompt user_message w).1)
  = S (model_calls (trace w)).
Proof.
  rewrite send_run. simpl. rewrite model_calls_app.
  unfold model_calls at 2. simpl. lia.
Qed.

(** Sending the tasks gives task [i] the rank [i] after the calls made
    before. *)
Lemma for_each_send tasks w :
  exists w1 sent,
    for_each (fun task => send task.1 task.2) tasks w = (w1, Returned sent)
    /\ length sent = length tasks
    /\ forall i task,
         tasks !! i = Some task ->
         sent !! i = Some ((model_calls (trace w) + i)%nat, [SystemMessage task.1; HumanMessage task.2]).
Proof.
  revert w. induction tasks as [|task tasks IH]; intros w.
  - exists w, []. split; [done|]. split; [done|]. intros i task [=].
  - simpl. unfold bind at 1.
    pose proof (send_model_calls task.1 task.2 w) as Hcalls.
    rewrite send_run in Hcalls |- *. simpl in Hcalls.
    match goal with
    | |- context [bind _ _ ?w0] =>
        destruct (IH w0) as (w1 & sent & Hrun & Hlen & Hsent)
    end.
    unfold bind at 1. rewrite Hrun. unfold ret.
    eexists _, _. split; [reflexivity|]. split; [simpl; by rewrite Hlen|].
    intros [|i] task' Hi.
    + injection Hi as <-. by rewrite Nat.add_0_r.
    + specialize (Hsent i task' Hi). simpl in Hsent. rewrite Hcalls in Hsent.
      change (sent !! i
              = Some ((model_calls (trace w) + S i)%nat, [SystemMessage task'.1; HumanMessage task'.2])).
      rewrite Hsent. do 2 f_equal. lia.
Qed.

Lemma receive_content p w w' s :
  receive ainvoke p w = (w', Returned s) ->
  exists r, ainvoke p.1 p.2 = Returned r /\ s = content r.
Proof.
  unfold receive, bind, lift, record_tokens, print, emit, ret.
  destruct (ainvoke p.1 p.2) as [e|r]; [done|].
  destruct (token_usage_of r) as [e|n]; [done|]. simpl.
  intros [= _ <-]. by exists r.
Qed.

Lemma fold_answer sent order :
  forall slots w w' slots',
    length sent = length slots ->
    fold_run (answer ainvoke sent) slots order w = (w', Returned slots') ->
    (forall i slot, slots !! i = Some slot -> slot_ok ainvoke sent i slot) ->
    length slots' = length slots
    /\ (forall i slot, slots' !! i = Some slot -> slot_ok ainvoke sent i slot)
    /\ (forall i, is_Some (slots !! i ≫= id) -> is_Some (slots' !! i ≫= id))
    /\ (forall i, i ∈ order -> (i < length slots)%nat ->
                  is_Some (slots' !! i ≫= id)).
Proof.
  induction order as [|j order IH]; intros slots w w' slots' Hlen Hrun Hok.
  - injection Hrun as <- <-. repeat split; try done.
    intros i Hi. by apply elem_of_nil in Hi.
  - simpl in Hrun. unfold bind at 1 in Hrun.
    destruct (answer ainvoke sent slots j w) as [w1 [e|slots1]] eqn:Hstep; [done|].
    assert (Hlen1 : length slots1 = length slots
                    /\ (forall i slot, slots1 !! i = Some slot -> slot_ok ainvoke sent i slot)
                    /\ (forall i, is_Some (slots !! i ≫= id) ->
                                  is_Some (slots1 !! i ≫= id))
                    /\ ((j < length slots)%nat -> is_Some (slots1 !! j ≫= id))).
    { unfold answer in Hstep.
      destruct (sent !! j) as [p|] eqn:Hp.
      - unfold bind in Hstep.
        destruct (receive ainvoke p w) as [w2 [e|s]] eqn:Hrecv; [done|].
        injection Hstep as _ <-.
        destruct (receive_content _ _ _ _ Hrecv) as (r & Hr & ->).
        split; [apply length_insert|]. split; [|split].
        + intros i slot Hi. destruct (decide (i = j)) as [->|Hne].
          * apply list_lookup_insert_Some in Hi as [(_ & <- & _)|[? _]]; [|done].
            intros s [= <-]. by exists p, r.
          * rewrite list_lookup_insert_ne in Hi by done. by apply Hok.
        + intros i Hi. destruct (decide (i = j)) as [->|Hne].
          * destruct (slots !! j) eqn:Hj; [|by destruct Hi].
            rewrite list_lookup_insert_eq by (eapply lookup_lt_Some; eassumption).
            by eexists.
          * by rewrite list_lookup_insert_ne.
        + intros Hj. rewrite list_lookup_insert_eq by done. by eexists.
      - injection Hstep as _ <-. repeat split; try done.
        intros Hj. apply lookup_ge_None in Hp. lia. }
    destruct Hlen1 as (Hlen1 & Hok1 & Hmono1 & Hfill1).
    destruct (IH slots1 w1 w' slots' ltac:(lia) Hrun Hok1)
      as (Hlen' & Hok' & Hmono' & Hfill').
    split; [lia|]. split; [done|]. split; [by auto|].
    intros i Hi Hlt. apply elem_of_cons in Hi as [->|Hi].
    + by apply Hmono', Hfill1.
    + apply Hfill'; [done | lia].
Qed.

Lemma gather_results_by_position sched tasks w w' results :
  gather ainvoke sched tasks w = (w', Returned results) ->
  length results = length tasks
  /\ forall i task,
       tasks !! i = Some task ->
       exists r,
         ainvoke (model_calls (trace w) + i)%nat ([SystemMessage task.1; HumanMessage task.2]) = Returned r
         /\ results !! i = Some (content r).
Proof.
  unfold gather. unfold bind at 1.
  destruct (for_each_send tasks w) as (w1 & sent & -> & Hlen & Hsent).
  unfold bind at 1.
  match goal with
  | |- context [fold_run ?f ?s ?o w1] =>
      change f with (answer ainvoke sent);
      destruct (fold_run (answer ainvoke sent) s o w1) as [w2 [e|slots]] eqn:Hfold; [done|]
  end.
  intros [= _ <-].
  apply fold_answer in Hfold as (Hlen' & Hok & _ & Hfill).
  - rewrite length_replicate in Hlen', Hfill.
    assert (Hall : Forall is_Some slots).
    { apply Forall_lookup. intros i slot Hi.
      assert (Hlt : (i < length tasks)%nat)
        by (rewrite <- Hlen'; eapply lookup_lt_Some; eassumption).
      specialize (Hfill i). rewrite Hi in Hfill. apply Hfill; [|done].
      rewrite completion_order_perm, elem_of_seq. lia. }
    apply omap_id_filled in Hall.
    split.
    + transitivity (length (Some <$> omap id slots));
        [by rewrite length_fmap | by rewrite <- Hall].
    + intros i task Hi.
      assert (Hlt : (i < length slots)%nat)
        by (rewrite Hlen'; eapply lookup_lt_Some; eassumption).
      apply lookup_lt_is_Some in Hlt as [slot Hslot].
      rewrite Hall, list_lookup_fmap in Hslot.
      destruct (omap id slots !! i) as [s|] eqn:Hs; [|done].
      injection Hslot as <-.
      assert (Hslot : slots !! i = Some (Some s))
        by (rewrite Hall, list_lookup_fmap, Hs; done).
      destruct (Hok i (Some s) Hslot s eq_refl) as (p & r & Hp & Hr & ->).
      rewrite (Hsent _ _ Hi) in Hp. injection Hp as <-.
      by exists r.
  - by rewrite length_replicate.
  - intros i slot Hi. apply lookup_replicate in Hi as [-> _]. by intros s.
Qed.

(** The results of the barrier do not depend on the order in which the
    answers arrive. *)
Lemma gather_results_any_order sched1 sched2 tasks w w1 w2 results1 results2 :
  gather ainvoke sched1 tasks w = (w1, Returned results1) ->
  gather ainvoke sched2 tasks w = (w2, Returned results2) ->
  results1 = results2.
Proof.
  intros H1 H2.
  apply gather_results_by_position in H1 as [Hlen1 Hpos1].
  apply gather_results_by_position in H2 as [Hlen2 Hpos2].
  apply list_eq. intros i.
  destruct (tasks !! i) as [task|] eqn:Hi.
  - destruct (Hpos1 _ _ Hi) as (r1 & Hr1 & ->).
    destruct (Hpos2 _ _ Hi) as (r2 & Hr2 & ->).
    rewrite Hr1 in Hr2. by injection Hr2 as <-.
  - apply lookup_ge_None in Hi.
    rewrite !(proj2 (lookup_ge_None _ _)) by lia. done.
Qed.

End GatherFacts.

(** ** Instances on the sample data *)

Example strip_samples :
  strip ("  a b " +:+ nl) = "a b"
  /\ strip "   " = ""
  /\ strip "  NO_MATCHES_FOUND  " = NO_MATCHES_FOUND.
Proof. repeat split. Qed.

Example join_samples :
  join (nl +:+ nl) ["A"; "B"] = "A" +:+ nl +:+ nl +:+ "B"
  /\ join ", " ["120"; "80"] = "120, 80"
  /\ join ", " [] = "".
Proof. repeat split. Qed.

Example completion_order_sample : completion_order 4 [2; 7; 2; 0] = [2; 0; 1; 3].
Proof. reflexivity. Qed.

(** A [token_usage] entry that is not a dictionary makes the second [get]
    fail. *)
Example token_usage_of_not_a_dict :
  token_usage_of {| content := "x"; response_metadata := {[ "token_usage" := MOther ]} |}
  = Raised AttributeError.
Proof. reflexivity. Qed.

Example final_user_message_sample :
  final_user_message (join (nl +:+ nl) (filter_results sample_results)) "john"
  = "## SEARCH RESULTS:" +:+ nl +:+ "Jane, age 30" +:+ nl +:+ nl
    +:+ "## ORIGINAL QUERY:" +:+ nl +:+ "john".
Proof. vm_compute. reflexivity. Qed.

(** The run over 250 users: three batches, so three search calls, of which
    the second finds a match; one synthesis call follows, and the tracker
    holds the four counts in the order the answers arrived (here the third
    batch first, then the first, the second, and the synthesis call). *)
Example main_250_users :
  let run := main format_sample sample_ainvoke " john  "
                  (Returned (sample_users 250)) [2; 0] initial_world in
  run.2 = Returned tt
  /\ model_calls (trace run.1) = 4%nat
  /\ token_tracker run.1
     = {| total_tokens := 60; batch_tokens := [20; 0; 10; 30]%Z |}
  /\ last (trace run.1) = Some (Print "Tokens used per batch: [20, 0, 10, 30]").
Proof. vm_compute. repeat split. Qed.

Lemma aggregate_all_sentinel_witness :
  Forall (fun res => strip res = NO_MATCHES_FOUND) sentinel_results
  /\ model_calls
       (trace (aggregate sample_ainvoke sentinel_results "john" initial_world).1)
     = 0%nat.
Proof.
  assert (H : Forall (fun res => strip res = NO_MATCHES_FOUND) sentinel_results)
    by (repeat constructor).
  split; [exact H|].
  exact (proj2 (proj2 (aggregate_all_sentinel sample_ainvoke sentinel_results
                         "john" initial_world H))).
Defined.

Lemma aggregate_synthesis_call_witness :
  filter_results two_matches <> []
  /\ exists rest,
       trace (aggregate sample_ainvoke two_matches "john" initial_world).1
       = ([Print "Processing...";
           Ainvoke [SystemMessage FINAL_SYSTEM_PROMPT;
                    HumanMessage
                      ("## SEARCH RESULTS:" +:+ nl +:+ "Jane, age 30" +:+ nl +:+ nl
                       +:+ "John, age 41" +:+ nl +:+ nl
                       +:+ "## ORIGINAL QUERY:" +:+ nl +:+ "john")]]
          ++ rest)%list
       /\ model_calls rest = 0%nat.
Proof.
  assert (H : filter_results two_matches <> []) by (vm_compute; discriminate).
  split; [exact H|].
  exact (proj1 (aggregate_synthesis_call sample_ainvoke two_matches
                  "john" initial_world H)).
Defined.

Lemma main_blank_query_witness :
  strip "   " = ""
  /\ main format_sample sample_ainvoke "   " (Returned (sample_users 3)) []
          initial_world
     = ({| trace := [Print "Query samples:";
                     Print " - Do we have someone with name John that loves traveling?";
                     Input "> "];
           token_tracker := TokenTracker_init |},
        Returned tt).
Proof.
  split; [reflexivity|].
  apply (main_blank_query format_sample sample_ainvoke (Returned (sample_users 3))
           [] "   " initial_world).
  reflexivity.
Defined.

Lemma generate_response_missing_usage_witness :
  generate_response sample_ainvoke BATCH_SYSTEM_PROMPT "john" initial_world
  = ({| trace := [Print "Processing...";
                  Ainvoke [SystemMessage BATCH_SYSTEM_PROMPT; HumanMessage "john"];
                  Print "Response content:   NO_MATCHES_FOUND  ";
                  Print "Total tokens: 0"];
        token_tracker := {| total_tokens := 0; batch_tokens := [0%Z] |} |},
     Returned "  NO_MATCHES_FOUND  ").
Proof.
  refine (proj1 (generate_response_missing_usage sample_ainvoke
                   BATCH_SYSTEM_PROMPT "john" initial_world
                   {| content := "  NO_MATCHES_FOUND  "; response_metadata := ∅ |}
                   _ _)).
  - reflexivity.
  - left. reflexivity.
Defined.

Lemma join_context_layout_witness :
  Forall (free_of format_sample "010"%char) (sample_users 2)
  /\ split_lines (join_context format_sample (sample_users 2))
     = ["User:"; "  id: 0"; "  name: Jane"; "User:"; "  id: 1"; "  name: Jane"].
Proof.
  assert (H : Forall (free_of format_sample "010"%char) (sample_users 2))
    by (repeat constructor).
  split; [exact H|].
  exact (proj2 (proj2 (join_context_layout format_sample))
           [("id", Number 0); ("name", Text "Jane")]
           [[("id", Number 1); ("name", Text "Jane")]] H).
Defined.

Lemma join_context_adds_no_quote_witness :
  Forall (free_of format_sample "034"%char) (sample_users 2)
  /\ occurs "034"%char (join_context format_sample (sample_users 2)) = false.
Proof.
  assert (H : Forall (free_of format_sample "034"%char) (sample_users 2))
    by (repeat constructor).
  split; [exact H|].
  exact (join_context_adds_no_quote format_sample "034"%char (sample_users 2)
           eq_refl H).
Defined.

(** * Further properties *)

(** ** More on one model call *)

Section ResponseFacts.

Context (ainvoke : nat -> list message -> outcome response).

(** X11.  When the answer carries a [token_usage] dictionary with a
    [total_tokens] count, [generate_response] prints the progress line,
    sends the call, records that count, prints the content and the count,
    and returns the content. *)
Theorem generate_response_records_usage system_prompt user_message w r usage n :
  ainvoke (model_calls (trace w))
          [SystemMessage system_prompt; HumanMessage user_message]
  = Returned r ->
  response_metadata r !! "token_usage" = Some (MDict usage) ->
  usage !! "total_tokens" = Some n ->
  generate_response ainvoke system_prompt user_message w
  = ({| trace := trace w
                 ++ [Print "Processing...";
                     Ainvoke [SystemMessage system_prompt; HumanMessage user_message];
                     Print ("Response content: " +:+ content r);
                     Print ("Total tokens: " +:+ pretty n)];
        token_tracker :=
          {| total_tokens := (total_tokens (token_tracker w) + n)%Z;
             batch_tokens := batch_tokens (token_tracker w) ++ [n] |} |},
     Returned (content r)).
Proof.
  intros Hr Hu Hn.
  assert (Htok : token_usage_of r = Returned n).
  { unfold token_usage_of, dict_get. rewrite Hu. simpl. by rewrite Hn. }
  unfold generate_response, bind. rewrite send_run.
  erewrite receive_returned by eassumption.
  simpl. by rewrite <- app_assoc.
Qed.

(** X12.  When the endpoint raises, [generate_response] raises the same
    exception after the progress line and the call: nothing is recorded in
    the tracker and nothing more is printed. *)
Theorem generate_response_propagates system_prompt user_message w e :
  ainvoke (model_calls (trace w))
          [SystemMessage system_prompt; HumanMessage user_message]
  = Raised e ->
  generate_response ainvoke system_prompt user_message w
  = ({| trace := trace w
                 ++ [Print "Processing...";
                     Ainvoke [SystemMessage system_prompt; HumanMessage user_message]];
        token_tracker := token_tracker w |},
     Raised e).
Proof.
  intros He. unfold generate_response, bind. rewrite send_run.
  unfold receive, bind, lift. simpl. by rewrite He.
Qed.

(** X13.  When the [token_usage] entry of the answer is not a dictionary,
    [generate_response] fails with [AttributeError] after the call has been
    made: the answer is neither printed nor returned and nothing is
    recorded. *)
Theorem generate_response_usage_not_a_dict system_prompt user_message w r :
  ainvoke (model_calls (trace w))
          [SystemMessage system_prompt; HumanMessage user_message]
  = Returned r ->
  response_metadata r !! "token_usage" = Some MOther ->
  generate_response ainvoke system_prompt user_message w
  = ({| trace := trace w
                 ++ [Print "Processing...";
                     Ainvoke [SystemMessage system_prompt; HumanMessage user_message]];
        token_tracker := token_tracker w |},
     Raised AttributeError).
Proof.
  intros Hr Hu. unfold generate_response, bind. rewrite send_run.
  unfold receive, bind, lift. simpl. rewrite Hr.
  unfold token_usage_of, dict_get. by rewrite Hu.
Qed.

End ResponseFacts.

(** ** More on batching *)

Section MoreBatchingFacts.

Context {A : Type}.
Implicit Types (users : list A).

(** Every batch holds at least one user and at most 100. *)
Lemma user_batches_bounds users :
  Forall (fun batch => 0 < length batch <= batch_size)%nat (user_batches users).
Proof.
  assert (Hs : (0 < batch_size)%nat) by (unfold batch_size; lia).
  apply Forall_lookup. intros i batch Hb. unfold user_batches in *.
  assert (Hi : (i < length (chunks batch_size users))%nat)
    by (eapply lookup_lt_Some; eassumption).
  rewrite chunks_lookup in Hb by done. injection Hb as <-.
  destruct (decide (S i = length (chunks batch_size users))) as [Hlast|Hnot].
  - destruct (chunks_last batch_size users i Hs Hlast) as [-> ?]. done.
  - rewrite chunks_full by (done || lia). lia.
Qed.

(** X2.  The user at position [i] of the list is the user at position
    [i mod 100] of batch [i / 100], and a position past the end of the list
    is past the end of the batches too. *)
Theorem user_batches_lookup users i :
  user_batches users !! (i / batch_size)%nat
    ≫= (fun batch => batch !! (i mod batch_size)%nat)
  = users !! i.
Proof.
  assert (Hs : (0 < batch_size)%nat) by (unfold batch_size; lia).
  unfold user_batches.
  assert (Hdm := Nat.div_mod_eq i batch_size).
  assert (Hm := Nat.mod_upper_bound i batch_size ltac:(lia)).
  destruct (ceil_div_bounds (length users) batch_size Hs) as [Hcov Hmin].
  rewrite <- chunks_length in Hcov, Hmin.
  destruct (decide (i / batch_size < length (chunks batch_size users))%nat)
    as [Hlt|Hge].
  - rewrite chunks_lookup by done. cbn [mbind option_bind].
    rewrite lookup_take_lt by done. rewrite lookup_drop. f_equal. nia.
  - rewrite (proj2 (lookup_ge_None _ _)) by lia. cbn [mbind option_bind].
    symmetry. apply lookup_ge_None. nia.
Qed.

(** X3.  A list of 1 to 100 users is kept whole as the only batch. *)
Theorem user_batches_single users :
  users <> [] ->
  (length users <= batch_size)%nat ->
  user_batches users = [users].
Proof.
  intros Hne Hle.
  assert (Hs : (0 < batch_size)%nat) by (unfold batch_size; lia).
  assert (Hpos : (0 < length users)%nat) by (destruct users; [done | simpl; lia]).
  destruct (ceil_div_bounds (length users) batch_size Hs) as [Hcov Hmin].
  assert (Hlen : length (user_batches users) = 1%nat).
  { unfold user_batches. rewrite chunks_length.
    specialize (Hmin 1%nat). nia. }
  destruct (user_batches users) as [|batch [|]] eqn:Hb; try done.
  pose proof (chunks_concat batch_size users Hs) as Hc.
  unfold user_batches in Hb. rewrite Hb in Hc. simpl in Hc.
  rewrite app_nil_r in Hc. by rewrite Hc.
Qed.

End MoreBatchingFacts.

(** ** Stripping *)

Lemma append_cons c s1 s2 : String c s1 +:+ s2 = String c (s1 +:+ s2).
Proof. reflexivity. Qed.

Lemma append_empty_r s : s +:+ "" = s.
Proof. induction s as [|c s IH]; [done|]. by rewrite append_cons, IH. Qed.

Lemma length_append s1 s2 :
  String.length (s1 +:+ s2) = (String.length s1 + String.length s2)%nat.
Proof.
  induction s1 as [|c s1 IH]; [done|]. rewrite append_cons. simpl. by rewrite IH.
Qed.

Lemma lstrip_cons c s :
  lstrip (String c s) = if isspace c then lstrip s else String c s.
Proof. reflexivity. Qed.

Lemma rstrip_cons c s :
  rstrip (String c s)
  = match rstrip s with
    | EmptyString => if isspace c then EmptyString else String c EmptyString
    | r => String c r
    end.
Proof. reflexivity. Qed.

Lemma blank_cons c s : blank (String c s) = isspace c && blank s.
Proof. reflexivity. Qed.

Lemma blank_app s1 s2 : blank (s1 +:+ s2) = blank s1 && blank s2.
Proof.
  induction s1 as [|c s1 IH]; [done|].
  by rewrite append_cons, !blank_cons, IH, andb_assoc.
Qed.

Lemma lstrip_split s :
  exists lead, s = lead +:+ lstrip s /\ blank lead = true.
Proof.
  induction s as [|c s (lead & Hs & Hlead)].
  - by exists "".
  - rewrite lstrip_cons. destruct (isspace c) eqn:Hc.
    + exists (String c lead). rewrite append_cons, <- Hs, blank_cons, Hc, Hlead. done.
    + by exists "".
Qed.

Lemma rstrip_split s :
  exists trail, s = rstrip s +:+ trail /\ blank trail = true.
Proof.
  induction s as [|c s (trail & Hs & Htrail)].
  - by exists "".
  - rewrite rstrip_cons. destruct (rstrip s) as [|d r] eqn:Hr.
    + change ("" +:+ trail) with trail in Hs. subst s.
      destruct (isspace c) eqn:Hc.
      * exists (String c trail). by rewrite blank_cons, Hc, Htrail.
      * by exists trail.
    + exists trail. by rewrite append_cons, <- Hs.
Qed.

Lemma lstrip_blank lead s : blank lead = true -> lstrip (lead +:+ s) = lstrip s.
Proof.
  induction lead as [|c lead IH]; [done|].
  rewrite blank_cons, append_cons, lstrip_cons.
  intros [-> Hlead]%andb_true_iff. by apply IH.
Qed.

Lemma rstrip_blank trail : blank trail = true -> rstrip trail = "".
Proof.
  induction trail as [|c trail IH]; [done|].
  rewrite blank_cons, rstrip_cons. intros [-> Htrail]%andb_true_iff.
  by rewrite IH.
Qed.

Lemma rstrip_app_blank s trail :
  blank trail = true -> rstrip (s +:+ trail) = rstrip s.
Proof.
  intros Htrail. induction s as [|c s IH].
  - by apply rstrip_blank.
  - by rewrite append_cons, !rstrip_cons, IH.
Qed.

Lemma rstrip_empty_blank s : rstrip s = "" -> blank s = true.
Proof.
  intros Hs. destruct (rstrip_split s) as (trail & Heq & Htrail).
  rewrite Hs in Heq. change ("" +:+ trail) with trail in Heq. by subst.
Qed.

Lemma lstrip_empty_blank s : lstrip s = "" -> blank s = true.
Proof.
  intros Hs. destruct (lstrip_split s) as (lead & Heq & Hlead).
  rewrite Hs, append_empty_r in Heq. by subst.
Qed.

Lemma strip_split s :
  exists lead trail,
    s = lead +:+ strip s +:+ trail /\ blank lead = true /\ blank trail = true.
Proof.
  destruct (lstrip_split s) as (lead & Hs & Hlead).
  destruct (rstrip_split (lstrip s)) as (trail & Hl & Htrail).
  exists lead, trail. unfold strip. by rewrite <- Hl, <- Hs.
Qed.

Lemma lstrip_blank_empty s : blank s = true -> lstrip s = "".
Proof.
  induction s as [|c s IH]; [done|].
  rewrite blank_cons, lstrip_cons. intros [-> Hs]%andb_true_iff. by apply IH.
Qed.

Lemma lstrip_app s t :
  lstrip (s +:+ t) = if blank s then lstrip t else lstrip s +:+ t.
Proof.
  induction s as [|c s IH]; [done|].
  rewrite append_cons, !lstrip_cons, blank_cons.
  destruct (isspace c); [exact IH | reflexivity].
Qed.

Lemma strip_padded lead core trail :
  blank lead = true -> blank trail = true ->
  strip (lead +:+ core +:+ trail) = strip core.
Proof.
  intros Hlead Htrail. unfold strip.
  rewrite lstrip_blank, lstrip_app by done.
  destruct (blank core) eqn:Hcore.
  - by rewrite !lstrip_blank_empty.
  - by apply rstrip_app_blank.
Qed.

Lemma rstrip_idemp s : rstrip (rstrip s) = rstrip s.
Proof.
  induction s as [|c s IH]; [done|].
  rewrite rstrip_cons. destruct (rstrip s) as [|d r] eqn:Hr.
  - destruct (isspace c) eqn:Hc; [done|]. by rewrite rstrip_cons, Hc.
  - by rewrite rstrip_cons, IH.
Qed.

Lemma lstrip_rstrip_lstrip s : lstrip (rstrip (lstrip s)) = rstrip (lstrip s).
Proof.
  induction s as [|c s IH]; [done|].
  rewrite lstrip_cons. destruct (isspace c) eqn:Hc; [exact IH|].
  rewrite rstrip_cons. destruct (rstrip s) as [|d r].
  - by rewrite Hc, lstrip_cons, Hc.
  - by rewrite lstrip_cons, Hc.
Qed.

Lemma strip_idemp s : strip (strip s) = strip s.
Proof. unfold strip. by rewrite lstrip_rstrip_lstrip, rstrip_idemp. Qed.

(** X7.  [strip] removes a whitespace prefix and a whitespace suffix and
    nothing else, and its result is stripped already: [strip s] is [t]
    exactly when [t] is its own strip and [s] is [t] between two texts of
    whitespace. *)
Theorem strip_characterisation s t :
  strip s = t
  <-> strip t = t
      /\ exists lead trail,
           blank lead = true /\ blank trail = true
           /\ s = lead +:+ t +:+ trail.
Proof.
  split.
  - intros <-. split; [apply strip_idemp|].
    destruct (strip_split s) as (lead & trail & Hs & Hlead & Htrail).
    by exists lead, trail.
  - intros (Ht & lead & trail & Hlead & Htrail & ->).
    by rewrite strip_padded.
Qed.

(** X8.  The stripped text is empty exactly when the text holds whitespace
    only; with C7, [main] skips the search exactly for such a query. *)
Theorem strip_empty_iff_blank s : strip s = "" <-> blank s = true.
Proof.
  split.
  - intros Hs. destruct (strip_split s) as (lead & trail & Heq & Hlead & Htrail).
    rewrite Hs in Heq. change ("" +:+ trail) with trail in Heq.
    by rewrite Heq, blank_app, Hlead, Htrail.
  - intros Hs. unfold strip. by rewrite lstrip_blank_empty.
Qed.

(** X9.  A batch result is dropped by the filter exactly when it is the
    sentinel [NO_MATCHES_FOUND] with nothing but whitespace before and after
    it. *)
Theorem sentinel_result_iff res :
  filter_results [res] = []
  <-> exists lead trail,
        blank lead = true /\ blank trail = true
        /\ res = lead +:+ NO_MATCHES_FOUND +:+ trail.
Proof.
  rewrite filter_results_nil_iff, Forall_singleton. split.
  - intros Hres.
    destruct (strip_split res) as (lead & trail & Hs & Hlead & Htrail).
    exists lead, trail. by rewrite <- Hres.
  - intros (lead & trail & Hlead & Htrail & ->).
    by rewrite strip_padded.
Qed.

(** X10.  Filtering twice is filtering once; no survivor is a sentinel and
    there are no more survivors than results. *)
Theorem filter_results_idemp batch_result :
  filter_results (filter_results batch_result) = filter_results batch_result
  /\ Forall (fun res => strip res <> NO_MATCHES_FOUND) (filter_results batch_result)
  /\ (length (filter_results batch_result) <= length batch_result)%nat.
Proof.
  assert (Hall : Forall (fun res => strip res <> NO_MATCHES_FOUND)
                        (filter_results batch_result)).
  { apply Forall_forall. intros res Hres.
    unfold filter_results in Hres. by apply list_elem_of_filter in Hres as [? _]. }
  split; [|split; [done | apply length_filter]].
  induction Hall as [|res l Hres _ IH]; [done|].
  by rewrite filter_results_cons, decide_False, IH.
Qed.

(** ** More on the context formatter *)

Lemma join_app sep l1 l2 :
  l1 <> [] -> l2 <> [] ->
  join sep (l1 ++ l2) = join sep l1 +:+ sep +:+ join sep l2.
Proof.
  intros H1 H2. induction l1 as [|a l1 IH]; [done|].
  destruct l1 as [|b l1].
  - destruct l2 as [|c l2]; [done|]. reflexivity.
  - change (a +:+ sep +:+ join sep ((b :: l1) ++ l2)
            = (a +:+ sep +:+ join sep (b :: l1)) +:+ sep +:+ join sep l2).
    rewrite IH by done. by rewrite <- !string_app_assoc.
Qed.

Section MoreFormatterFacts.

Context {V : Type} (format_value : V -> string).
Implicit Types (u : @user V) (context : list (@user V)).

Lemma context_lines_nonempty context :
  context <> [] -> concat (map (user_lines format_value) context) <> [].
Proof. by destruct context. Qed.

Lemma join_context_nonempty context :
  context <> [] ->
  join_context format_value context
  = join nl (concat (map (user_lines format_value) context)).
Proof. destruct context; [done|]. intros _. apply join_context_lines. Qed.

Lemma join_context_append context1 context2 :
  context1 <> [] -> context2 <> [] ->
  join_context format_value (context1 ++ context2)
  = join_context format_value context1 +:+ nl
    +:+ join_context format_value context2.
Proof.
  intros H1 H2.
  rewrite !join_context_nonempty by (done || by destruct context1).
  rewrite map_app, concat_app.
  by apply join_app; apply context_lines_nonempty.
Qed.

(** X4.  Formatting is compositional: the context of two batches put one after
    the other is the context of the first, a line feed, and the context of
    the second (both batches holding at least one record). *)
Theorem join_context_app context1 context2 :
  context1 <> [] -> context2 <> [] ->
  join_context format_value (context1 ++ context2)
  = join_context format_value context1 +:+ nl
    +:+ join_context format_value context2.
Proof.
  intros H1 H2.
  rewrite !join_context_nonempty by (done || by destruct context1).
  rewrite map_app, concat_app.
  by apply join_app; apply context_lines_nonempty.
Qed.

Lemma join_context_concat (batches : list (list (@user V))) :
  batches <> [] ->
  Forall (fun batch => batch <> []) batches ->
  join nl (map (join_context format_value) batches)
  = join_context format_value (concat batches).
Proof.
  intros Hne Hall. induction Hall as [|batch batches Hb Hall IH]; [done|].
  destruct batches as [|batch' batches].
  - simpl. by rewrite app_nil_r.
  - change (join_context format_value batch +:+ nl
            +:+ join nl (map (join_context format_value) (batch' :: batches))
            = join_context format_value (batch ++ concat (batch' :: batches))).
    rewrite IH by done. symmetry. apply join_context_append; [done|].
    inversion Hall as [|? ? Hb' _]; subst. by destruct batch'.
Qed.

(** X5.  Batching loses and repeats nothing of the text: the contexts of the
    batches of a list of users, joined by line feeds, are the context of the
    whole list; and the task [main] builds for a batch carries the context
    of that batch, between the two headings of the user prompt and before
    the query, with [BATCH_SYSTEM_PROMPT] as its system prompt. *)
Theorem join_context_user_batches (users : list (@user V)) :
  users <> [] ->
  join nl (map (join_context format_value) (user_batches users))
  = join_context format_value users
  /\ forall user_question,
       batch_tasks format_value (user_batches users) user_question
       = map (fun batch =>
                (BATCH_SYSTEM_PROMPT,
                 "## USER DATA:" +:+ nl +:+ join_context format_value batch
                 +:+ nl +:+ nl +:+ "## SEARCH QUERY: " +:+ nl +:+ user_question))
             (user_batches users).
Proof.
  intros Hne. split; [|reflexivity].
  assert (Hs : (0 < batch_size)%nat) by (unfold batch_size; lia).
  pose proof (chunks_concat batch_size users Hs) as Hc.
  fold (user_batches users) in Hc.
  rewrite <- Hc at 2. apply join_context_concat.
  - intros Hb. rewrite Hb in Hc. by subst.
  - apply Forall_lookup. intros i batch Hi. unfold user_batches in Hi.
    assert (Hlt : (i < length (chunks batch_size users))%nat)
      by (eapply lookup_lt_Some; eassumption).
    rewrite chunks_lookup in Hi by done. injection Hi as <-.
    intros Hnil. apply (f_equal length) in Hnil. simpl in Hnil.
    destruct (decide (S i = length (chunks batch_size users))) as [Hlast|Hnot].
    + destruct (chunks_last batch_size users i Hs Hlast) as [Hl ?]. lia.
    + rewrite chunks_full in Hnil by (done || lia). lia.
Qed.

Lemma field_line_not_header item : field_line format_value item <> "User:".
Proof. unfold field_line. destruct item as [key value]. done. Qed.

Lemma header_count context :
  length (filter (fun line => line = "User:")
                 (concat (map (user_lines format_value) context)))
  = length context.
Proof.
  induction context as [|u context IH]; [done|].
  change (length (filter (fun line => line = "User:")
                    ("User:" :: map (field_line format_value) u
                     ++ concat (map (user_lines format_value) context)))
          = S (length context)).
  rewrite filter_cons_True by done. simpl. f_equal.
  rewrite filter_app, length_app, IH.
  replace (filter (fun line => line = "User:") (map (field_line format_value) u))
    with (@nil string); [done|].
  symmetry. induction u as [|item u IHu]; [done|].
  change (filter (fun line => line = "User:")
            (field_line format_value item :: map (field_line format_value) u) = []).
  rewrite filter_cons_False by apply field_line_not_header. exact IHu.
Qed.

Lemma context_lines_length context :
  length (concat (map (user_lines format_value) context))
  = (length context + sum_list (map length context))%nat.
Proof.
  induction context as [|u context IH]; [done|].
  simpl. rewrite length_app, length_map, IH. lia.
Qed.

(** X6.  When no field name and no rendered value holds a line feed, the
    context of a batch that is not empty has exactly one line "User:" per
    record, and as many lines as there are records and fields together. *)
Theorem join_context_line_count context :
  context <> [] ->
  Forall (free_of format_value "010"%char) context ->
  let lines := split_lines (join_context format_value context) in
  length (filter (fun line => line = "User:") lines) = length context
  /\ length lines = (length context + sum_list (map length context))%nat.
Proof.
  intros Hne Hfree lines. unfold lines.
  rewrite join_context_nonempty by done.
  rewrite split_lines_join.
  - split; [apply header_count | apply context_lines_length].
  - by apply context_lines_nonempty.
  - apply context_lines_free; [repeat split | done].
Qed.

End MoreFormatterFacts.

(** ** The barrier and the order of the answers *)

Lemma world_eta w : {| trace := trace w; token_tracker := token_tracker w |} = w.
Proof. by destruct w. Qed.

Lemma model_calls_dispatch tasks : model_calls (dispatch tasks) = length tasks.
Proof.
  induction tasks as [|task tasks IH]; [done|].
  change (model_calls
            ([Print "Processing...";
              Ainvoke [SystemMessage task.1; HumanMessage task.2]]
             ++ dispatch tasks)
          = S (length tasks)).
  rewrite model_calls_app, IH. reflexivity.
Qed.

Lemma sum_tokens_Permutation l1 l2 : l1 ≡ₚ l2 -> sum_tokens l1 = sum_tokens l2.
Proof.
  unfold sum_tokens. induction 1; simpl; lia.
Qed.

Section OrderFacts.

Context (ainvoke : nat -> list message -> outcome response).

Lemma receive_answered p w :
  answers ainvoke p = true ->
  exists s evs,
    receive ainvoke p w
    = ({| trace := trace w ++ evs;
          token_tracker := add_tokens (token_tracker w) (tokens_of ainvoke p) |},
       Returned s)
    /\ model_calls evs = 0%nat.
Proof.
  unfold answers, tokens_of. intros Hp.
  destruct (ainvoke p.1 p.2) as [e|r] eqn:Hr; [done|].
  destruct (token_usage_of r) as [e|n] eqn:Hn; [done|].
  eexists _, _. split; [by apply receive_returned|]. reflexivity.
Qed.

Lemma receive_unanswered p w :
  answers ainvoke p = false -> exists e, receive ainvoke p w = (w, Raised e).
Proof.
  unfold answers, receive, bind, lift. intros Hp.
  destruct (ainvoke p.1 p.2) as [e|r]; [by exists e|].
  destruct (token_usage_of r) as [e|n]; [by exists e | done].
Qed.

Lemma receive_returned_answers p w w' s :
  receive ainvoke p w = (w', Returned s) -> answers ainvoke p = true.
Proof.
  intros Hrun. destruct (answers ainvoke p) eqn:Hp; [done|].
  destruct (receive_unanswered p w Hp) as (e & He). congruence.
Qed.

Lemma fold_run_cons {A S : Type} (f : S -> A -> M S) s a l w :
  fold_run f s (a :: l) w
  = match f s a w with
    | (w', Returned s') => fold_run f s' l w'
    | (w', Raised e) => (w', Raised e)
    end.
Proof. reflexivity. Qed.

Lemma answer_answered sent slots i w p :
  sent !! i = Some p ->
  answers ainvoke p = true ->
  exists s evs,
    answer ainvoke sent slots i w
    = ({| trace := trace w ++ evs;
          token_tracker := add_tokens (token_tracker w) (tokens_of ainvoke p) |},
       Returned (<[i := Some s]> slots))
    /\ model_calls evs = 0%nat.
Proof.
  intros Hp Hans. destruct (receive_answered p w Hans) as (s & evs & Hrun & Hevs).
  exists s, evs. split; [|done].
  unfold answer. rewrite Hp. unfold bind. by rewrite Hrun.
Qed.

Lemma answer_unanswered sent slots i w p :
  sent !! i = Some p ->
  answers ainvoke p = false ->
  exists e, answer ainvoke sent slots i w = (w, Raised e).
Proof.
  intros Hp Hans. destruct (receive_unanswered p w Hans) as (e & Hrun).
  exists e. unfold answer. rewrite Hp. unfold bind. by rewrite Hrun.
Qed.

Lemma answer_absent sent slots i w :
  sent !! i = None -> answer ainvoke sent slots i w = (w, Returned slots).
Proof. intros Hp. unfold answer. by rewrite Hp. Qed.

Lemma recorded_cons_Some sent i order p :
  sent !! i = Some p ->
  recorded ainvoke sent (i :: order)
  = tokens_of ainvoke p :: recorded ainvoke sent order.
Proof. intros Hp. unfold recorded. simpl. by rewrite Hp. Qed.

Lemma recorded_cons_None sent i order :
  sent !! i = None ->
  recorded ainvoke sent (i :: order) = recorded ainvoke sent order.
Proof. intros Hp. unfold recorded. simpl. by rewrite Hp. Qed.

Lemma fold_answer_all_ok sent order :
  forall slots w,
    (forall i p, i ∈ order -> sent !! i = Some p -> answers ainvoke p = true) ->
    exists w' slots' evs,
      fold_run (answer ainvoke sent) slots order w = (w', Returned slots')
      /\ trace w' = (trace w ++ evs)%list
      /\ model_calls evs = 0%nat
      /\ token_tracker w' = add_all (token_tracker w) (recorded ainvoke sent order).
Proof.
  induction order as [|i order IH]; intros slots w Hok.
  - exists w, slots, []. by rewrite app_nil_r.
  - assert (Hok' : forall j q, j ∈ order -> sent !! j = Some q ->
                               answers ainvoke q = true).
    { intros j q Hj. apply Hok. by right. }
    rewrite fold_run_cons.
    destruct (sent !! i) as [p|] eqn:Hp.
    + destruct (answer_answered sent slots i w p Hp) as (s & evs & -> & Hevs).
      { eapply Hok; [left | done]. }
      match goal with
      | |- context [fold_run _ ?sl order ?w0] =>
          destruct (IH sl w0 Hok') as (w' & slots' & evs' & -> & Htr & Hevs' & Htok)
      end.
      exists w', slots', (evs ++ evs')%list. split; [done|].
      simpl in Htr, Htok. split; [by rewrite Htr, app_assoc|].
      split; [rewrite model_calls_app; lia|].
      by rewrite (recorded_cons_Some _ _ _ _ Hp).
    + rewrite answer_absent, recorded_cons_None by done.
      by apply IH.
Qed.

Lemma fold_answer_returned sent order :
  forall slots w w' slots',
    fold_run (answer ainvoke sent) slots order w = (w', Returned slots') ->
    forall i p, i ∈ order -> sent !! i = Some p -> answers ainvoke p = true.
Proof.
  induction order as [|j order IH]; intros slots w w' slots' Hrun i p Hi Hp.
  - by apply elem_of_nil in Hi.
  - rewrite fold_run_cons in Hrun.
    destruct (answer ainvoke sent slots j w) as [w1 [e|slots1]] eqn:Hstep; [done|].
    apply elem_of_cons in Hi as [->|Hi]; [|by eapply IH].
    destruct (answers ainvoke p) eqn:Hans; [done|].
    destruct (answer_unanswered sent slots j w p Hp Hans) as (e & He).
    congruence.
Qed.

(** Whatever happens, handling answers only prints and records. *)
Lemma fold_answer_any sent order :
  forall slots w,
    exists evs calls,
      trace (fold_run (answer ainvoke sent) slots order w).1 = (trace w ++ evs)%list
      /\ model_calls evs = 0%nat
      /\ token_tracker (fold_run (answer ainvoke sent) slots order w).1
         = add_all (token_tracker w) calls
      /\ (length calls <= length order)%nat.
Proof.
  induction order as [|i order IH]; intros slots w.
  - exists [], []. simpl. rewrite app_nil_r. repeat split; done.
  - rewrite fold_run_cons.
    destruct (sent !! i) as [p|] eqn:Hp.
    + destruct (answers ainvoke p) eqn:Hans.
      * destruct (answer_answered sent slots i w p Hp Hans) as (s & evs & -> & Hevs).
        match goal with
        | |- context [fold_run _ ?sl order ?w0] =>
            destruct (IH sl w0) as (evs' & calls & Htr & Hevs' & Htok & Hlen)
        end.
        exists (evs ++ evs')%list, (tokens_of ainvoke p :: calls).
        simpl in Htr, Htok. rewrite Htr, Htok, app_assoc, model_calls_app.
        repeat split; simpl; lia.
      * destruct (answer_unanswered sent slots i w p Hp Hans) as (e & ->).
        exists [], []. simpl. rewrite app_nil_r. repeat split; simpl; lia.
    + rewrite answer_absent by done.
      destruct (IH slots w) as (evs' & calls & Htr & Hevs' & Htok & Hlen).
      exists evs', calls. repeat split; try done. simpl; lia.
Qed.

Lemma for_each_send_world tasks w :
  (for_each (fun task => send task.1 task.2) tasks w).1
  = {| trace := trace w ++ dispatch tasks; token_tracker := token_tracker w |}.
Proof.
  revert w. induction tasks as [|task tasks IH]; intros w.
  - simpl. unfold dispatch. simpl. by rewrite app_nil_r, world_eta.
  - simpl. unfold bind at 1. rewrite send_run.
    match goal with
    | |- context [bind _ _ ?w0] =>
        pose proof (IH w0) as Hw; destruct (for_each_send tasks w0) as (w1 & sent & Hrun & _)
    end.
    unfold bind at 1. rewrite Hrun in Hw |- *. simpl in *. subst w1.
    unfold dispatch. simpl. by rewrite <- app_assoc.
Qed.

End OrderFacts.

Section BarrierFacts.

Context (ainvoke : nat -> list message -> outcome response).

Lemma gather_unfold sched tasks w w0 sent :
  for_each (fun task => send task.1 task.2) tasks w = (w0, Returned sent) ->
  gather ainvoke sched tasks w
  = match fold_run (answer ainvoke sent) (replicate (length tasks) None)
                   (completion_order (length tasks) sched) w0 with
    | (w', Returned slots) => (w', Returned (omap id slots))
    | (w', Raised e) => (w', Raised e)
    end.
Proof.
  intros Hsend. unfold gather. unfold bind at 1. rewrite Hsend.
  unfold bind at 1.
  destruct (fold_run _ _ _ w0) as [w' [e|slots]]; reflexivity.
Qed.

(** X14.  Whatever the answers and their order, the barrier first sends every
    task (a progress line and a call each, in task order) and sends nothing
    afterwards: all the calls are in flight together, and their number is
    the number of tasks. *)
Theorem gather_dispatches_all sched tasks w :
  exists rest,
    trace (gather ainvoke sched tasks w).1
    = (trace w ++ dispatch tasks ++ rest)%list
    /\ model_calls rest = 0%nat
    /\ model_calls (trace (gather ainvoke sched tasks w).1)
       = (model_calls (trace w) + length tasks)%nat.
Proof.
  destruct (for_each_send tasks w) as (w0 & sent & Hsend & _).
  pose proof (for_each_send_world tasks w) as Hw0.
  rewrite Hsend in Hw0. simpl in Hw0.
  rewrite (gather_unfold sched tasks w w0 sent Hsend).
  destruct (fold_answer_any ainvoke sent (completion_order (length tasks) sched)
              (replicate (length tasks) None) w0)
    as (rest & calls & Htr & Hrest & _).
  assert (Heq : trace
                  (match fold_run (answer ainvoke sent)
                           (replicate (length tasks) None)
                           (completion_order (length tasks) sched) w0 with
                   | (w', Returned slots) => (w', Returned (omap id slots))
                   | (w', Raised e) => (w', Raised e)
                   end).1
                = (trace w ++ dispatch tasks ++ rest)%list).
  { destruct (fold_run _ _ _ w0) as [w' [e|slots]]; simpl in *;
      rewrite Htr, Hw0; simpl; by rewrite <- app_assoc. }
  exists rest. split; [exact Heq|]. split; [exact Hrest|].
  rewrite Heq, !model_calls_app, model_calls_dispatch, Hrest. lia.
Qed.

(** X15.  When the barrier returns for one order of the answers, it returns
    for every order, with the same results; the total recorded by the
    tracker is the same and the per-call counts are the same up to their
    order. *)
Theorem gather_order_independent sched1 sched2 tasks w w1 results :
  gather ainvoke sched1 tasks w = (w1, Returned results) ->
  exists w2,
    gather ainvoke sched2 tasks w = (w2, Returned results)
    /\ total_tokens (token_tracker w2) = total_tokens (token_tracker w1)
    /\ batch_tokens (token_tracker w2) ≡ₚ batch_tokens (token_tracker w1).
Proof.
  intros Hrun1.
  destruct (for_each_send tasks w) as (w0 & sent & Hsend & _).
  pose proof Hrun1 as Hrun1'.
  rewrite (gather_unfold sched1 tasks w w0 sent Hsend) in Hrun1'.
  destruct (fold_run (answer ainvoke sent) (replicate (length tasks) None)
              (completion_order (length tasks) sched1) w0)
    as [w1' [e|slots1]] eqn:Hfold1; [done|].
  injection Hrun1' as -> Hres.
  assert (Hperm : completion_order (length tasks) sched2
                  ≡ₚ completion_order (length tasks) sched1)
    by (by rewrite !completion_order_perm).
  assert (Hok1 : forall i p, i ∈ completion_order (length tasks) sched1 ->
                             sent !! i = Some p -> answers ainvoke p = true)
    by (eapply fold_answer_returned; eassumption).
  assert (Hok2 : forall i p, i ∈ completion_order (length tasks) sched2 ->
                             sent !! i = Some p -> answers ainvoke p = true).
  { intros i p Hi. apply Hok1. by rewrite <- Hperm. }
  destruct (fold_answer_all_ok ainvoke sent _ (replicate (length tasks) None) w0 Hok1)
    as (w1'' & slots1' & evs1 & Hf1 & _ & _ & Htok1).
  rewrite Hfold1 in Hf1. injection Hf1 as <- <-.
  destruct (fold_answer_all_ok ainvoke sent _ (replicate (length tasks) None) w0 Hok2)
    as (w2 & slots2 & evs2 & Hf2 & _ & _ & Htok2).
  assert (Hrun2 : gather ainvoke sched2 tasks w = (w2, Returned (omap id slots2))).
  { rewrite (gather_unfold sched2 tasks w w0 sent Hsend). by rewrite Hf2. }
  assert (Hsame : results = omap id slots2)
    by (eapply gather_results_any_order; eassumption).
  exists w2. split; [by rewrite Hsame|].
  assert (Hrec : recorded ainvoke sent (completion_order (length tasks) sched2)
                 ≡ₚ recorded ainvoke sent (completion_order (length tasks) sched1)).
  { unfold recorded. by apply omap_Permutation. }
  rewrite Htok1, Htok2. split.
  - rewrite !add_all_total_tokens. f_equal. by apply sum_tokens_Permutation.
  - rewrite !add_all_batch_tokens. by apply Permutation_app_head.
Qed.

End BarrierFacts.

Section BarrierOutcome.

Context (ainvoke : nat -> list message -> outcome response).

(** X16.  The barrier returns exactly when every task is answered with a
    response whose usage can be read: one failing call makes the whole
    wait fail, whatever the order of the answers. *)
Theorem gather_returns_iff sched tasks w :
  (exists w' results, gather ainvoke sched tasks w = (w', Returned results))
  <-> forall i task,
        tasks !! i = Some task ->
        answers ainvoke
          ((model_calls (trace w) + i)%nat,
           [SystemMessage task.1; HumanMessage task.2])
        = true.
Proof.
  destruct (for_each_send tasks w) as (w0 & sent & Hsend & Hlen & Hsent).
  rewrite (gather_unfold ainvoke sched tasks w w0 sent Hsend).
  split.
  - intros (w' & results & Hrun) i task Hi.
    destruct (fold_run (answer ainvoke sent) (replicate (length tasks) None)
                (completion_order (length tasks) sched) w0)
      as [w1 [e|slots]] eqn:Hfold; [done|].
    eapply fold_answer_returned; [exact Hfold | | by apply Hsent].
    rewrite completion_order_perm, elem_of_seq.
    apply lookup_lt_Some in Hi. lia.
  - intros Hall.
    destruct (fold_answer_all_ok ainvoke sent
                (completion_order (length tasks) sched)
                (replicate (length tasks) None) w0)
      as (w1 & slots & evs & -> & _).
    + intros i p Hi Hp.
      assert (Hlt : (i < length tasks)%nat)
        by (rewrite <- Hlen; eapply lookup_lt_Some; eassumption).
      apply lookup_lt_is_Some in Hlt as [task Htask].
      pose proof (Hsent _ _ Htask) as Hs. unfold pending in *.
      rewrite Hp in Hs. injection Hs as ->. by apply Hall.
    + by eexists _, _.
Qed.

End BarrierOutcome.

(** ** Runs only append *)

Lemma add_all_app self calls1 calls2 :
  add_all (add_all self calls1) calls2 = add_all self (calls1 ++ calls2).
Proof. unfold add_all. by rewrite foldl_app. Qed.

Lemma add_all_inv self calls : tracker_inv self -> tracker_inv (add_all self calls).
Proof.
  revert self. induction calls as [|n calls IH]; intros self Hinv; [done|].
  simpl. by apply IH, add_tokens_inv.
Qed.

Lemma grows_refl w : grows w w.
Proof. exists [], []. by rewrite app_nil_r. Qed.

Lemma grows_trans w1 w2 w3 : grows w1 w2 -> grows w2 w3 -> grows w1 w3.
Proof.
  intros (evs1 & calls1 & Htr1 & Htok1) (evs2 & calls2 & Htr2 & Htok2).
  exists (evs1 ++ evs2)%list, (calls1 ++ calls2)%list.
  by rewrite Htr2, Htr1, Htok2, Htok1, app_assoc, add_all_app.
Qed.

Lemma steady_ret {A : Type} (a : A) : steady (ret a).
Proof. intros w. apply grows_refl. Qed.

Lemma steady_lift {A : Type} (o : outcome A) : steady (lift o).
Proof. intros w. apply grows_refl. Qed.

Lemma steady_emit e : steady (emit e).
Proof. intros w. by exists [e], []. Qed.

Lemma steady_record_tokens n : steady (record_tokens n).
Proof. intros w. exists [], [n]. simpl. by rewrite app_nil_r. Qed.

Lemma steady_bind {A B : Type} (c : M A) (k : A -> M B) :
  steady c -> (forall a, steady (k a)) -> steady (bind c k).
Proof.
  intros Hc Hk w. unfold bind. specialize (Hc w).
  destruct (c w) as [w1 [e|a]]; [exact Hc|].
  eapply grows_trans; [exact Hc | apply Hk].
Qed.

Lemma steady_for_each {A B : Type} (f : A -> M B) l :
  (forall a, steady (f a)) -> steady (for_each f l).
Proof.
  intros Hf. induction l as [|a l IH]; simpl.
  - apply steady_ret.
  - apply steady_bind; [apply Hf|]. intros b.
    apply steady_bind; [exact IH|]. intros bs. apply steady_ret.
Qed.

Lemma steady_fold_run {A S : Type} (f : S -> A -> M S) l :
  (forall s a, steady (f s a)) -> forall s, steady (fold_run f s l).
Proof.
  intros Hf. induction l as [|a l IH]; intros s; simpl.
  - apply steady_ret.
  - apply steady_bind; [apply Hf | exact IH].
Qed.

Lemma steady_send system_prompt user_message : steady (send system_prompt user_message).
Proof. intros w. rewrite send_run. eexists _, []. split; reflexivity. Qed.

Section SteadyFacts.

Context {V : Type} (format_value : V -> string).
Context (ainvoke : nat -> list message -> outcome response).
Context (stdin_line : string).
Context (all_users : outcome (list (@user V))).
Context (sched : list nat).

Lemma steady_receive p : steady (receive ainvoke p).
Proof.
  unfold receive.
  repeat (apply steady_bind; [|intros ?]);
    auto using steady_lift, steady_record_tokens, steady_emit, steady_ret.
  all: apply steady_emit.
Qed.

Lemma steady_generate_response system_prompt user_message :
  steady (generate_response ainvoke system_prompt user_message).
Proof.
  unfold generate_response. apply steady_bind; [apply steady_send|].
  intros p. apply steady_receive.
Qed.

Lemma steady_gather tasks : steady (gather ainvoke sched tasks).
Proof.
  unfold gather. apply steady_bind.
  - apply steady_for_each. intros task. apply steady_send.
  - intros sent. apply steady_bind; [|intros slots; apply steady_ret].
    apply steady_fold_run. intros slots i. unfold answer.
    destruct (sent !! i) as [p|]; [|apply steady_ret].
    apply steady_bind; [apply steady_receive | intros r; apply steady_ret].
Qed.

Lemma steady_aggregate batch_result user_question :
  steady (aggregate ainvoke batch_result user_question).
Proof.
  unfold aggregate. destruct (filter_results batch_result).
  - apply steady_emit.
  - apply steady_bind; [apply steady_generate_response|].
    intros ?. apply steady_ret.
Qed.

Lemma print_summary_run w :
  print_summary w
  = ({| trace := trace w ++ summary_lines (token_tracker w);
        token_tracker := token_tracker w |},
     Returned tt).
Proof.
  unfold print_summary, bind, print, emit, summary_lines. simpl.
  by rewrite <- !app_assoc.
Qed.

Lemma steady_print_summary : steady print_summary.
Proof. intros w. rewrite print_summary_run. by exists (summary_lines (token_tracker w)), []. Qed.

Lemma steady_main : steady (main format_value ainvoke stdin_line all_users sched).
Proof.
  unfold main.
  apply steady_bind; [apply steady_emit | intros _].
  apply steady_bind; [apply steady_emit | intros _].
  apply steady_bind.
  { unfold input. apply steady_bind; [apply steady_emit | intros _; apply steady_ret]. }
  intros line. destruct (strip line); [apply steady_ret|].
  apply steady_bind; [apply steady_emit | intros _].
  apply steady_bind.
  { unfold get_all_users. apply steady_bind; [apply steady_emit | intros _; apply steady_lift]. }
  intros users.
  apply steady_bind; [apply steady_gather | intros batch_result].
  apply steady_bind; [apply steady_aggregate | intros _].
  apply steady_print_summary.
Qed.

(** X17.  A run only appends, whatever its outcome: the trace it leaves starts
    with the trace it found, the tracker keeps its earlier counts and its
    total grows by the sum of the new ones, and the tracker invariant is
    kept. *)
Theorem main_only_appends w :
  let w' := (main format_value ainvoke stdin_line all_users sched w).1 in
  (exists evs, trace w' = (trace w ++ evs)%list)
  /\ (exists calls,
         batch_tokens (token_tracker w')
         = (batch_tokens (token_tracker w) ++ calls)%list
         /\ total_tokens (token_tracker w')
            = (total_tokens (token_tracker w) + sum_tokens calls)%Z)
  /\ (tracker_inv (token_tracker w) -> tracker_inv (token_tracker w')).
Proof.
  intros w'. destruct (steady_main w) as (evs & calls & Htr & Htok).
  fold w' in Htr, Htok. split; [by exists evs|]. split.
  - exists calls. by rewrite Htok, add_all_batch_tokens, add_all_total_tokens.
  - intros Hinv. rewrite Htok. by apply add_all_inv.
Qed.

(** The run up to the answer of the user source. *)
Lemma main_nonblank w :
  strip stdin_line <> "" ->
  let w5 := {| trace := trace w ++ search_prelude;
               token_tracker := token_tracker w |} in
  main format_value ainvoke stdin_line all_users sched w
  = match all_users with
    | Raised e => (w5, Raised e)
    | Returned users =>
        (do batch_result <-
           gather ainvoke sched
             (batch_tasks format_value (user_batches users) (strip stdin_line));
         do _ <- aggregate ainvoke batch_result (strip stdin_line);
         print_summary) w5
    end.
Proof.
  intros Hq w5. unfold main. unfold bind at 1 2 3. simpl.
  destruct (strip stdin_line) as [|c q] eqn:Hs; [done|].
  unfold bind at 1 2. unfold get_all_users, bind at 1, lift. simpl.
  unfold bind at 1. simpl.
  assert (Hw : {| trace := ((((trace w ++ [Print "Query samples:"])
                              ++ [Print " - Do we have someone with name John that loves traveling?"])
                             ++ [Input "> "])
                            ++ [Print (nl +:+ "--- Searching user database ---")])
                           ++ [GetAllUsers];
                  token_tracker := token_tracker w |} = w5).
  { unfold w5, search_prelude. by rewrite <- !app_assoc. }
  rewrite Hw. by destruct all_users.
Qed.

End SteadyFacts.

(** ** Whole runs *)

Lemma completion_order_length n sched : length (completion_order n sched) = n.
Proof. by rewrite completion_order_perm, length_seq. Qed.

Lemma completion_order_zero sched : completion_order 0 sched = [].
Proof. apply length_zero_iff_nil, completion_order_length. Qed.

Lemma bind_returned {A B : Type} (c : M A) (k : A -> M B) w w' b :
  bind c k w = (w', Returned b) ->
  exists w1 a, c w = (w1, Returned a) /\ k a w1 = (w', Returned b).
Proof.
  unfold bind. destruct (c w) as [w1 [e|a]]; [done|]. by exists w1, a.
Qed.

Section RunFacts.

Context {V : Type} (format_value : V -> string).
Context (ainvoke : nat -> list message -> outcome response).
Context (sched : list nat).

Lemma recorded_length sent order :
  (forall i, i ∈ order -> (i < length sent)%nat) ->
  length (recorded ainvoke sent order) = length order.
Proof.
  induction order as [|i order IH]; intros Hin; [done|].
  destruct (lookup_lt_is_Some_2 sent i) as [p Hp]; [apply Hin; by left|].
  rewrite (recorded_cons_Some _ _ _ _ _ Hp). simpl.
  rewrite IH; [done|]. intros j Hj. apply Hin. by right.
Qed.

Lemma gather_nil w : gather ainvoke sched [] w = (w, Returned []).
Proof.
  unfold gather, bind. simpl. by rewrite completion_order_zero.
Qed.

Lemma gather_returned tasks w w' results :
  gather ainvoke sched tasks w = (w', Returned results) ->
  model_calls (trace w') = (model_calls (trace w) + length tasks)%nat
  /\ exists calls,
       length calls = length tasks
       /\ token_tracker w' = add_all (token_tracker w) calls.
Proof.
  intros Hrun.
  destruct (for_each_send tasks w) as (w0 & sent & Hsend & Hlen & _).
  pose proof (for_each_send_world tasks w) as Hw0.
  rewrite Hsend in Hw0. simpl in Hw0.
  rewrite (gather_unfold ainvoke sched tasks w w0 sent Hsend) in Hrun.
  destruct (fold_run (answer ainvoke sent) (replicate (length tasks) None)
              (completion_order (length tasks) sched) w0)
    as [w1 [e|slots]] eqn:Hfold; [done|].
  injection Hrun as -> _.
  destruct (fold_answer_all_ok ainvoke sent
              (completion_order (length tasks) sched)
              (replicate (length tasks) None) w0)
    as (w1 & slots' & evs & Hf & Htr & Hevs & Htok).
  { eapply fold_answer_returned; eassumption. }
  rewrite Hfold in Hf. injection Hf as <- <-.
  split.
  - rewrite Htr, Hw0. simpl.
    rewrite !model_calls_app, model_calls_dispatch, Hevs. lia.
  - eexists. split; [|rewrite Htok, Hw0; reflexivity].
    rewrite recorded_length; [apply completion_order_length|].
    intros i Hi. rewrite completion_order_perm, elem_of_seq in Hi. lia.
Qed.

Lemma generate_response_returned system_prompt user_message w w' s :
  generate_response ainvoke system_prompt user_message w = (w', Returned s) ->
  model_calls (trace w') = S (model_calls (trace w))
  /\ exists n, token_tracker w' = add_tokens (token_tracker w) n.
Proof.
  unfold generate_response. intros (w1 & p & Hsend & Hrecv)%bind_returned.
  rewrite send_run in Hsend. injection Hsend as <- <-.
  pose proof (receive_returned_answers _ _ _ _ _ Hrecv) as Hans.
  match type of Hrecv with
  | receive _ ?p ?w0 = _ =>
      destruct (receive_answered ainvoke p w0 Hans) as (s' & evs & Hrun & Hevs)
  end.
  rewrite Hrun in Hrecv. injection Hrecv as <- _. simpl. split.
  - rewrite !model_calls_app, Hevs. unfold model_calls at 2. simpl. lia.
  - by eexists.
Qed.

Lemma aggregate_returned batch_result user_question w w' :
  aggregate ainvoke batch_result user_question w = (w', Returned tt) ->
  exists calls,
    (length calls <= 1)%nat
    /\ model_calls (trace w') = (model_calls (trace w) + length calls)%nat
    /\ token_tracker w' = add_all (token_tracker w) calls.
Proof.
  unfold aggregate. destruct (filter_results batch_result) as [|res results].
  - intros [= <-]. exists []. simpl. rewrite model_calls_print.
    repeat split; lia.
  - intros (w1 & s & Hgen & Hret)%bind_returned.
    injection Hret as <-.
    apply generate_response_returned in Hgen as (Hcalls & n & Htok).
    exists [n]. simpl. repeat split; [lia | lia | done].
Qed.

Lemma main_returned stdin_line all_users w w' :
  strip stdin_line <> "" ->
  main format_value ainvoke stdin_line all_users sched w = (w', Returned tt) ->
  exists users w6 batch_result w7,
    all_users = Returned users
    /\ gather ainvoke sched
         (batch_tasks format_value (user_batches users) (strip stdin_line))
         {| trace := trace w ++ search_prelude; token_tracker := token_tracker w |}
       = (w6, Returned batch_result)
    /\ aggregate ainvoke batch_result (strip stdin_line) w6 = (w7, Returned tt)
    /\ w' = {| trace := trace w7 ++ summary_lines (token_tracker w7);
               token_tracker := token_tracker w7 |}.
Proof.
  intros Hq Hrun. rewrite main_nonblank in Hrun by done.
  destruct all_users as [e|users]; [done|].
  apply bind_returned in Hrun as (w6 & batch_result & Hgather & Hrun).
  apply bind_returned in Hrun as (w7 & [] & Hagg & Hrun).
  rewrite print_summary_run in Hrun. injection Hrun as <-.
  by exists users, w6, batch_result, w7.
Qed.

(** X18.  With a query that is not blank, a run prints the search banner and
    asks for the users, whatever happens next. *)
Theorem main_fetches_users stdin_line all_users w :
  strip stdin_line <> "" ->
  exists rest,
    trace (main format_value ainvoke stdin_line all_users sched w).1
    = (trace w ++ search_prelude ++ rest)%list.
Proof.
  intros Hq. rewrite main_nonblank by done.
  destruct all_users as [e|users].
  - exists []. by rewrite app_nil_r.
  - match goal with
    | |- context [bind ?c ?k ?w5] =>
        assert (Hst : steady (bind c k))
    end.
    { apply steady_bind; [apply steady_gather | intros batch_result].
      apply steady_bind; [apply steady_aggregate | intros _].
      apply steady_print_summary. }
    match goal with
    | |- context [bind ?c ?k ?w5] =>
        destruct (Hst w5) as (evs & _ & Htr & _)
    end.
    exists evs. rewrite Htr. simpl. by rewrite <- app_assoc.
Qed.

(** X19.  When the user source raises, the run ends with that exception right
    after asking: no call is sent to the model, nothing is recorded and no
    summary is printed. *)
Theorem main_user_source_fails stdin_line e w :
  strip stdin_line <> "" ->
  main format_value ainvoke stdin_line (Raised e) sched w
  = ({| trace := trace w ++ search_prelude; token_tracker := token_tracker w |},
     Raised e).
Proof. intros Hq. by rewrite main_nonblank. Qed.

(** X20.  With no users there are no batches: the run sends no call to the
    model, prints that no users were found and the usage summary of the
    tracker as it was, and returns. *)
Theorem main_no_users stdin_line w :
  strip stdin_line <> "" ->
  main format_value ainvoke stdin_line (Returned []) sched w
  = ({| trace := trace w ++ search_prelude
                 ++ [Print "No users found matching the search criteria."]
                 ++ summary_lines (token_tracker w);
        token_tracker := token_tracker w |},
     Returned tt).
Proof.
  intros Hq. rewrite main_nonblank by done.
  change (batch_tasks format_value (user_batches []) (strip stdin_line))
    with (@nil (string * string)).
  unfold bind. rewrite gather_nil.
  change (aggregate ainvoke [] (strip stdin_line))
    with (print "No users found matching the search criteria.").
  unfold print, emit. rewrite print_summary_run. simpl.
  by rewrite <- !app_assoc.
Qed.

(** X21.  In a run that returns, the users were fetched and every call sent to
    the model has its count recorded: the tracker grows by as many counts as
    calls were sent, which is the number of batches or one more (the
    synthesis call). *)
Theorem main_records_every_call stdin_line all_users w w' :
  strip stdin_line <> "" ->
  main format_value ainvoke stdin_line all_users sched w = (w', Returned tt) ->
  exists users calls,
    all_users = Returned users
    /\ token_tracker w' = add_all (token_tracker w) calls
    /\ model_calls (trace w') = (model_calls (trace w) + length calls)%nat
    /\ (length (user_batches users) <= length calls
        <= length (user_batches users) + 1)%nat
    /\ batch_tokens (token_tracker w')
       = (batch_tokens (token_tracker w) ++ calls)%list
    /\ total_tokens (token_tracker w')
       = (total_tokens (token_tracker w) + sum_tokens calls)%Z.
Proof.
  intros Hq Hrun.
  destruct (main_returned _ _ _ _ Hq Hrun)
    as (users & w6 & batch_result & w7 & Husers & Hgather & Hagg & ->).
  apply gather_returned in Hgather as (Hcalls6 & calls6 & Hlen6 & Htok6).
  apply aggregate_returned in Hagg as (calls7 & Hlen7 & Hcalls7 & Htok7).
  simpl in Hcalls6, Htok6.
  unfold batch_tasks in Hlen6, Hcalls6. rewrite length_map in Hlen6, Hcalls6.
  exists users, (calls6 ++ calls7)%list. split; [done|]. simpl.
  assert (Htok : token_tracker w7
                 = add_all (token_tracker w) (calls6 ++ calls7))
    by (by rewrite Htok7, Htok6, add_all_app).
  split; [exact Htok|].
  rewrite length_app, Hlen6. split; [|split; [lia|]].
  - rewrite !model_calls_app, Hcalls7, Hcalls6, model_calls_app.
    assert (model_calls search_prelude = 0%nat) by reflexivity.
    assert (model_calls (summary_lines (token_tracker w7)) = 0%nat) by reflexivity.
    lia.
  - rewrite Htok. split; [apply add_all_batch_tokens | apply add_all_total_tokens].
Qed.

(** X22.  A run that returns ends by printing the usage summary of the tracker
    as it is at the end: the total, the number of recorded calls and the
    per-call counts of all the calls of the run. *)
Theorem main_prints_final_summary stdin_line all_users w w' :
  strip stdin_line <> "" ->
  main format_value ainvoke stdin_line all_users sched w = (w', Returned tt) ->
  exists earlier,
    trace w' = (earlier ++ summary_lines (token_tracker w'))%list.
Proof.
  intros Hq Hrun.
  destruct (main_returned _ _ _ _ Hq Hrun)
    as (users & w6 & batch_result & w7 & _ & _ & _ & ->).
  by exists (trace w7).
Qed.

End RunFacts.

(** ** Instances of the further properties *)

Lemma user_batches_single_witness :
  user_batches (seq 0 3) = [seq 0 3].
Proof.
  apply (user_batches_single (seq 0 3)).
  - discriminate.
  - unfold batch_size. simpl. lia.
Defined.

Lemma join_context_app_witness :
  join_context format_sample (sample_users 1 ++ sample_users 2)
  = join_context format_sample (sample_users 1) +:+ nl
    +:+ join_context format_sample (sample_users 2).
Proof.
  apply (join_context_app format_sample (sample_users 1) (sample_users 2));
    vm_compute; discriminate.
Defined.

Lemma join_context_user_batches_witness :
  length (user_batches (sample_users 250)) = 3%nat
  /\ join nl (map (join_context format_sample) (user_batches (sample_users 250)))
     = join_context format_sample (sample_users 250).
Proof.
  split; [reflexivity|].
  refine (proj1 (join_context_user_batches format_sample (sample_users 250) _)).
  vm_compute. discriminate.
Defined.

Lemma join_context_line_count_witness :
  length (filter (fun line => line = "User:")
                 (split_lines (join_context format_sample (sample_users 2))))
  = 2%nat
  /\ length (split_lines (join_context format_sample (sample_users 2))) = 6%nat.
Proof.
  apply (join_context_line_count format_sample (sample_users 2)).
  - vm_compute. discriminate.
  - repeat constructor.
Defined.

Lemma generate_response_records_usage_witness :
  generate_response flaky_ainvoke BATCH_SYSTEM_PROMPT "john" initial_world
  = ({| trace := [Print "Processing...";
                  Ainvoke [SystemMessage BATCH_SYSTEM_PROMPT; HumanMessage "john"];
                  Print "Response content: Jane, age 30";
                  Print "Total tokens: 42"];
        token_tracker := {| total_tokens := 42; batch_tokens := [42%Z] |} |},
     Returned "Jane, age 30").
Proof.
  apply (generate_response_records_usage flaky_ainvoke BATCH_SYSTEM_PROMPT "john"
           initial_world
           {| content := "Jane, age 30";
              response_metadata :=
                {[ "token_usage" := MDict {[ "total_tokens" := 42%Z ]} ]} |}
           {[ "total_tokens" := 42%Z ]} 42%Z);
    reflexivity.
Defined.

Lemma generate_response_propagates_witness :
  generate_response flaky_ainvoke BATCH_SYSTEM_PROMPT "john" one_call_made
  = ({| trace := [Ainvoke [];
                  Print "Processing...";
                  Ainvoke [SystemMessage BATCH_SYSTEM_PROMPT; HumanMessage "john"]];
        token_tracker := TokenTracker_init |},
     Raised (Failure "timeout")).
Proof.
  apply (generate_response_propagates flaky_ainvoke BATCH_SYSTEM_PROMPT "john"
           one_call_made (Failure "timeout")).
  reflexivity.
Defined.

Lemma generate_response_usage_not_a_dict_witness :
  generate_response flaky_ainvoke BATCH_SYSTEM_PROMPT "john" two_calls_made
  = ({| trace := [Ainvoke []; Ainvoke [];
                  Print "Processing...";
                  Ainvoke [SystemMessage BATCH_SYSTEM_PROMPT; HumanMessage "john"]];
        token_tracker := TokenTracker_init |},
     Raised AttributeError).
Proof.
  apply (generate_response_usage_not_a_dict flaky_ainvoke BATCH_SYSTEM_PROMPT "john"
           two_calls_made
           {| content := "ok";
              response_metadata := {[ "token_usage" := MOther ]} |});
    reflexivity.
Defined.

Lemma gather_order_independent_witness :
  exists w2,
    gather sample_ainvoke [1%nat; 0%nat] sample_tasks initial_world
    = (w2, Returned ["  NO_MATCHES_FOUND  "; "Jane, age 30"])
    /\ total_tokens (token_tracker w2)
       = total_tokens (token_tracker (gather sample_ainvoke [] sample_tasks initial_world).1)
    /\ batch_tokens (token_tracker w2)
       ≡ₚ batch_tokens (token_tracker (gather sample_ainvoke [] sample_tasks initial_world).1).
Proof.
  apply (gather_order_independent sample_ainvoke [] [1%nat; 0%nat] sample_tasks
           initial_world (gather sample_ainvoke [] sample_tasks initial_world).1
           ["  NO_MATCHES_FOUND  "; "Jane, age 30"]).
  vm_compute. reflexivity.
Defined.

Lemma main_fetches_users_witness :
  exists rest,
    trace (main format_sample flaky_ainvoke " john  " (Returned (sample_users 3)) []
             initial_world).1
    = (search_prelude ++ rest)%list.
Proof.
  apply (main_fetches_users format_sample flaky_ainvoke [] " john  "
           (Returned (sample_users 3)) initial_world).
  vm_compute. discriminate.
Defined.

Lemma main_user_source_fails_witness :
  main format_sample sample_ainvoke " john  " (Raised (Failure "no route")) []
       initial_world
  = ({| trace := search_prelude; token_tracker := TokenTracker_init |},
     Raised (Failure "no route")).
Proof.
  apply (main_user_source_fails format_sample sample_ainvoke [] " john  "
           (Failure "no route") initial_world).
  vm_compute. discriminate.
Defined.

Lemma main_no_users_witness :
  main format_sample sample_ainvoke " john  " (Returned []) [] initial_world
  = ({| trace := search_prelude
                 ++ [Print "No users found matching the search criteria."]
                 ++ summary_lines TokenTracker_init;
        token_tracker := TokenTracker_init |},
     Returned tt).
Proof.
  apply (main_no_users format_sample sample_ainvoke [] " john  " initial_world).
  vm_compute. discriminate.
Defined.

Lemma main_records_every_call_witness :
  exists users calls,
    Returned (sample_users 250) = Returned users
    /\ token_tracker
         (main format_sample sample_ainvoke " john  " (Returned (sample_users 250))
               [2%nat; 0%nat] initial_world).1
       = add_all (token_tracker initial_world) calls
    /\ model_calls
         (trace (main format_sample sample_ainvoke " john  "
                      (Returned (sample_users 250)) [2%nat; 0%nat] initial_world).1)
       = (model_calls (trace initial_world) + length calls)%nat
    /\ (length (user_batches users) <= length calls
        <= length (user_batches users) + 1)%nat
    /\ batch_tokens
         (token_tracker
            (main format_sample sample_ainvoke " john  " (Returned (sample_users 250))
                  [2%nat; 0%nat] initial_world).1)
       = (batch_tokens (token_tracker initial_world) ++ calls)%list
    /\ total_tokens
         (token_tracker
            (main format_sample sample_ainvoke " john  " (Returned (sample_users 250))
                  [2%nat; 0%nat] initial_world).1)
       = (total_tokens (token_tracker initial_world) + sum_tokens calls)%Z.
Proof.
  apply (main_records_every_call format_sample sample_ainvoke [2%nat; 0%nat]
           " john  " (Returned (sample_users 250)) initial_world).
  - vm_compute. discriminate.
  - vm_compute. reflexivity.
Defined.

Lemma main_prints_final_summary_witness :
  exists earlier,
    trace (main format_sample sample_ainvoke " john  " (Returned (sample_users 250))
                [2%nat; 0%nat] initial_world).1
    = (earlier
       ++ summary_lines
            (token_tracker
               (main format_sample sample_ainvoke " john  "
                     (Returned (sample_users 250)) [2%nat; 0%nat] initial_world).1))%list.
Proof.
  apply (main_prints_final_summary format_sample sample_ainvoke [2%nat; 0%nat]
           " john  " (Returned (sample_users 250)) initial_world).
  - vm_compute. discriminate.
  - vm_compute. reflexivity.
Defined.

Lemma main_only_appends_witness :
  tracker_inv
    (token_tracker
       (main format_sample flaky_ainvoke " john  " (Returned (sample_users 250))
             [] initial_world).1).
Proof.
  apply (main_only_appends format_sample flaky_ainvoke " john  "
           (Returned (sample_users 250)) [] initial_world).
  split; reflexivity.
Defined.

(** ** What a run sends for the batches *)

Lemma bind_trace_extends {A B : Type} (c : M A) (k : A -> M B) w :
  (forall a, steady (k a)) ->
  exists evs, trace (bind c k w).1 = (trace (c w).1 ++ evs)%list.
Proof.
  intros Hk. unfold bind. destruct (c w) as [w1 [e|a]].
  - exists []. by rewrite app_nil_r.
  - destruct (Hk a w1) as (evs & _ & Htr & _). by exists evs.
Qed.

Section BatchCalls.

Context {V : Type} (format_value : V -> string).

Lemma join_context_header (context : list (@user V)) :
  context <> [] ->
  exists tail, join_context format_value context = "User:" +:+ tail.
Proof.
  intros Hne. rewrite join_context_nonempty by done.
  destruct context as [|u context]; [done|].
  change (concat (map (user_lines format_value) (u :: context)))
    with ("User:" :: (map (field_line format_value) u
                      ++ concat (map (user_lines format_value) context))%list).
  destruct (map (field_line format_value) u
            ++ concat (map (user_lines format_value) context))%list
    as [|line lines].
  - by exists "".
  - exists (nl +:+ join nl (line :: lines)). reflexivity.
Qed.

Lemma join_context_not_placeholder (context : list (@user V)) :
  context <> [] ->
  join_context format_value context <> "No user data available.".
Proof.
  intros Hne. destruct (join_context_header context Hne) as (tail & ->).
  discriminate.
Qed.
Context (ainvoke : nat -> list message -> outcome response).
Context (sched : list nat).

Lemma gather_trace_dispatch tasks w :
  exists rest,
    trace (gather ainvoke sched tasks w).1 = (trace w ++ dispatch tasks ++ rest)%list.
Proof.
  destruct (for_each_send tasks w) as (w0 & sent & Hsend & _).
  pose proof (for_each_send_world tasks w) as Hw0.
  rewrite Hsend in Hw0. simpl in Hw0.
  rewrite (gather_unfold ainvoke sched tasks w w0 sent Hsend).
  destruct (fold_answer_any ainvoke sent (completion_order (length tasks) sched)
              (replicate (length tasks) None) w0)
    as (rest & calls & Htr & _).
  exists rest.
  destruct (fold_run _ _ _ w0) as [w' [e|slots]]; simpl in *;
    rewrite Htr, Hw0; simpl; by rewrite <- app_assoc.
Qed.

Lemma dispatch_batch_tasks batches user_question :
  Forall (fun batch => batch <> []) batches ->
  dispatch (batch_tasks format_value batches user_question)
  = concat (map (batch_call format_value user_question) batches).
Proof.
  induction 1 as [|batch batches Hb _ IH]; [done|].
  unfold dispatch in *. simpl. rewrite IH. unfold batch_call at 2.
  unfold USER_PROMPT_format. by rewrite join_context_nonempty.
Qed.

(** X1.  No batch is empty and none holds more than 100 users, so [main]
    never formats an empty batch: the context of a batch is never the text
    "No user data available.", and a run with a query that is not blank
    sends, after fetching the users, one call per batch in order, each with
    [BATCH_SYSTEM_PROMPT] and a user message holding the records of the
    batch, formatted, and the stripped query. *)
Theorem main_formats_no_empty_batch stdin_line users w :
  strip stdin_line <> "" ->
  Forall (fun batch => 0 < length batch <= 100)%nat (user_batches users)
  /\ Forall (fun batch =>
               join_context format_value batch <> "No user data available.")
            (user_batches users)
  /\ exists rest,
       trace (main format_value ainvoke stdin_line (Returned users) sched w).1
       = (trace w ++ search_prelude
          ++ concat (map (batch_call format_value (strip stdin_line))
                         (user_batches users))
          ++ rest)%list.
Proof.
  intros Hq.
  assert (Hfull : Forall (fun batch => batch <> []) (user_batches users)).
  { eapply Forall_impl; [apply (user_batches_bounds users)|].
    intros batch [Hpos _] ->. simpl in Hpos. lia. }
  split; [apply user_batches_bounds|]. split.
  { eapply Forall_impl; [exact Hfull|].
    intros batch Hb. by apply join_context_not_placeholder. }
  rewrite main_nonblank by done.
  match goal with
  | |- context [bind ?c ?k ?w5] =>
      destruct (bind_trace_extends c k w5) as (evs & ->)
  end.
  { intros batch_result.
    apply steady_bind; [apply steady_aggregate | intros _].
    apply steady_print_summary. }
  match goal with
  | |- context [gather ainvoke sched ?tasks ?w5] =>
      destruct (gather_trace_dispatch tasks w5) as (rest & ->)
  end.
  rewrite dispatch_batch_tasks by exact Hfull.
  exists (rest ++ evs)%list. simpl. by rewrite <- !app_assoc.
Qed.

End BatchCalls.

Lemma main_formats_no_empty_batch_witness :
  exists rest,
    trace (main format_sample sample_ainvoke " john  " (Returned (sample_users 2)) []
                initial_world).1
    = (search_prelude
       ++ [Print "Processing...";
           Ainvoke [SystemMessage BATCH_SYSTEM_PROMPT;
                    HumanMessage
                      ("## USER DATA:" +:+ nl
                       +:+ "User:" +:+ nl +:+ "  id: 0" +:+ nl +:+ "  name: Jane" +:+ nl
                       +:+ "User:" +:+ nl +:+ "  id: 1" +:+ nl +:+ "  name: Jane"
                       +:+ nl +:+ nl +:+ "## SEARCH QUERY: " +:+ nl +:+ "john")]]
       ++ rest)%list.
Proof.
  refine (proj2 (proj2 (main_formats_no_empty_batch format_sample sample_ainvoke []
                   " john  " (sample_users 2) initial_world _))).
  vm_compute. discriminate.
Defined.
